(** * blind-assistant-backend: device binding, location relay and face
      enrolment handlers of [src/index.js]

    The Express handlers are embedded as state-passing functions
    [request data -> state -> outcome * state].  The state gathers the two
    stores the handlers talk to:

    - the Firebase Realtime Database, one finite map per path family
      ([device-user/<deviceId>], [users/<userId>/deviceId],
      [users/<userId>/locationRequest], [users/<userId>/detectedFaces],
      [devices/<deviceId>]); identifiers are taken to be single path
      segments, as Firebase keys are;
    - the MongoDB [User] collection, one document per [userId].

    A handler runs from its first line to its [return] without another
    handler running in between: the model is the sequential one.  The
    collaborators the handlers call but which live in libraries
    (face-api.js detection and matching) are variables of the section; for
    the classification of a probe the library's matcher is also given as a
    model, after its documentation. *)

From Stdlib Require Import QArith Qabs.
From stdpp Require Import gmap strings list fin_maps.

Local Open Scope string_scope.

(** ** Errors and responses *)

(** Modelled from the spec: [utils/ExpressError.js] is not among the sources.
    An [ExpressError] carries a human message and an optional status code, as
    its uses [new ExpressError(msg)] and [new ExpressError(msg, code)] and the
    final error middleware show.  [TypeError] stands for the exception the
    JavaScript runtime raises on a property read of [undefined]; [LibraryError]
    for an exception raised inside a library call. *)
Inductive js_error : Type :=
  | ExpressError (message : string) (statusCode : option nat)
  | TypeError (message : string)
  | LibraryError (message : string).

Definition err_message (e : js_error) : string :=
  match e with
  | ExpressError m _ => m
  | TypeError m => m
  | LibraryError m => m
  end.

Definition err_statusCode (e : js_error) : option nat :=
  match e with
  | ExpressError _ c => c
  | _ => None
  end.

(** The final middleware, [app.use((err, req, res, next) => ...)]:
    [const { statusCode = 500 } = err], and a default message when the error
    has none. *)
Definition error_middleware (e : js_error) : nat * string :=
  let statusCode := default 500 (err_statusCode e) in
  let message :=
    match err_message e with
    | EmptyString => "Something went wrong!"
    | m => m
    end in
  (statusCode, message).

Definition status_of (e : js_error) : nat := fst (error_middleware e).

(** The error kinds of the specification, read off the status code that
    reaches the client. *)
Definition is_NotFound (e : js_error) : Prop := status_of e = 404.
Definition is_Conflict (e : js_error) : Prop := status_of e = 409.
Definition is_Unauthorized (e : js_error) : Prop := status_of e = 401.

(** [String(x)] for a value that may be [undefined] (a missing query
    parameter) or [null] (the [val()] of an absent node), as string
    concatenation performs it when a path is built. *)
Definition path_segment (absent : string) (x : option string) : string :=
  default absent x.

(** ** Keys of the Realtime Database

    The handlers build a path by appending an identifier to a prefix.  The
    store (a library, not among the sources) takes the identifier as one key
    only when it is non-empty and holds none of [.], [#], [$], [[], []], a
    slash or an ASCII control character: a reference to a path with one of
    the five signs or a control character is refused with an exception, a
    slash starts a nested key, and the empty identifier names the parent
    node.  The finite maps of the state below are this store for identifiers
    that are such keys. *)
Definition forbidden_in_key (c : Ascii.ascii) : bool :=
  let n := Ascii.nat_of_ascii c in
  (n <? 32)%nat || (n =? 127)%nat ||
  existsb (Ascii.eqb c) (String.list_ascii_of_string ".#$[]/").

Definition valid_key (k : string) : bool :=
  match k with
  | EmptyString => false
  | _ => forallb (fun c => negb (forbidden_in_key c)) (String.list_ascii_of_string k)
  end.

Section Backend.

(** Decoded image buffers, face descriptors ([Float32Array]) and the JSON
    values passed through as coordinates. *)
Context {image descriptor coord : Type}.

(** ** Data *)

Record LocationReport : Type := mkLocation {
  lat : coord;
  lng : coord;
  time : nat
}.

(** Modelled from the spec: [models/userModel.js] is not among the sources.
    A [User] document is keyed by a [userId] string and holds [faces], a
    list of sub-documents with a [label], [descriptions] and the [_id]
    MongoDB assigns when the sub-document is pushed. *)
Record Face : Type := mkFace {
  _id : nat;
  label : string;
  descriptions : list descriptor
}.

Record LabeledFaceDescriptors : Type := mkLabeled {
  lfd_label : string;
  lfd_descriptors : list descriptor
}.

Record FaceMatch : Type := mkFaceMatch {
  fm_label : string;
  fm_distance : Q
}.

(** ** Library collaborators *)

(** [faceapi.detectSingleFace(img).withFaceLandmarks().withFaceDescriptor()]:
    [undefined] when no face is found, else the detection with its
    descriptor. *)
Variable detectSingleFace : image -> option descriptor.

(** [faceapi.detectAllFaces(img).withFaceLandmarks().withFaceDescriptors()]. *)
Variable detectAllFaces : image -> list descriptor.

(** [new faceapi.FaceMatcher(inputs, threshold)] followed by
    [findBestMatch]: the constructor may raise. *)
Variable FaceMatcher :
  list LabeledFaceDescriptors -> Q -> js_error + (descriptor -> FaceMatch).

(** ** The stores *)

Record state : Type := mkState {
  device_user : gmap string string;
  users_deviceId : gmap string string;
  users_locationRequest : gmap string bool;
  users_detectedFaces : gmap string (list string);
  devices : gmap string (list LocationReport);
  User : gmap string (list Face);
  next_id : nat
}.

Definition init : state :=
  mkState ∅ ∅ ∅ ∅ ∅ ∅ 0.

Definition set_device_user (f : gmap string string -> gmap string string)
    (s : state) : state :=
  mkState (f (device_user s)) (users_deviceId s) (users_locationRequest s)
          (users_detectedFaces s) (devices s) (User s) (next_id s).

Definition set_users_deviceId (f : gmap string string -> gmap string string)
    (s : state) : state :=
  mkState (device_user s) (f (users_deviceId s)) (users_locationRequest s)
          (users_detectedFaces s) (devices s) (User s) (next_id s).

Definition set_users_locationRequest
    (f : gmap string bool -> gmap string bool) (s : state) : state :=
  mkState (device_user s) (users_deviceId s) (f (users_locationRequest s))
          (users_detectedFaces s) (devices s) (User s) (next_id s).

Definition set_users_detectedFaces
    (f : gmap string (list string) -> gmap string (list string))
    (s : state) : state :=
  mkState (device_user s) (users_deviceId s) (users_locationRequest s)
          (f (users_detectedFaces s)) (devices s) (User s) (next_id s).

Definition set_devices
    (f : gmap string (list LocationReport) -> gmap string (list LocationReport))
    (s : state) : state :=
  mkState (device_user s) (users_deviceId s) (users_locationRequest s)
          (users_detectedFaces s) (f (devices s)) (User s) (next_id s).

Definition set_User
    (f : gmap string (list Face) -> gmap string (list Face))
    (s : state) : state :=
  mkState (device_user s) (users_deviceId s) (users_locationRequest s)
          (users_detectedFaces s) (devices s) (f (User s)) (next_id s).

Definition set_next_id (f : nat -> nat) (s : state) : state :=
  mkState (device_user s) (users_deviceId s) (users_locationRequest s)
          (users_detectedFaces s) (devices s) (User s) (f (next_id s)).

(** [User.findOne({ userId })]: a [null] userId selects no document, every
    document carrying a userId string. *)
Definition findOne (userId : option string) (s : state) : option (list Face) :=
  match userId with
  | Some u => User s !! u
  | None => None
  end.

(** ** Responses *)

Inductive body : Type :=
  | Text (s : string)
  | SuccessMessage (s : string)
  | Results (results : list FaceMatch)
  | FaceArray (faceArray : list (nat * string)).

Inductive outcome : Type :=
  | Send (status : nat) (b : body)
  | Next (err : js_error).

(** ** Binding registry *)

Definition ResolveUserByDevice (s : state) (deviceId : string) : option string :=
  device_user s !! deviceId.

Definition ResolveDeviceByUser (s : state) (userId : string) : option string :=
  users_deviceId s !! userId.

(** [POST /deviceId], the specification's [Rebind]. *)
Definition post_deviceId (userId newDeviceId : string) (s : state)
    : outcome * state :=
  if negb (String.length newDeviceId =? 6)%nat then
    (Next (ExpressError "Device id must be 6 characters!" None), s)
  else
    match device_user s !! newDeviceId with
    | Some _ => (Next (ExpressError "This id is already owned!" (Some 409)), s)
    | None =>
        let s1 :=
          match users_deviceId s !! userId with
          | Some old => set_device_user (delete old) s
          | None => s
          end in
        let s2 := set_users_deviceId (<[userId := newDeviceId]>) s1 in
        let s3 := set_device_user (<[newDeviceId := userId]>) s2 in
        (Send 200 (SuccessMessage "Successfully updated"), s3)
    end.

Definition Rebind := post_deviceId.

(** ** Location relay *)

(** [GET /set-location-request], the specification's [RequestLocation].
    [deviceId] is [req.query.deviceId]: [None] when the parameter is
    missing; [!deviceId] holds for [undefined] and for the empty string. *)
Definition get_set_location_request (deviceId : option string) (s : state)
    : outcome * state :=
  match deviceId with
  | None | Some EmptyString =>
      (Next (ExpressError "You must provide a device id!" None), s)
  | Some d =>
      match device_user s !! d with
      | None =>
          (Next (ExpressError "No user found with this device id!" (Some 404)), s)
      | Some userId =>
          (Send 200 (Text "Successful"),
           set_users_locationRequest (<[userId := true]>) s)
      end
  end.

Definition RequestLocation := get_set_location_request.

(** [locationsRef.push(location)]: a new child under [devices/<deviceId>],
    after the children already there. *)
Definition push_location (deviceId : string) (l : LocationReport)
    (m : gmap string (list LocationReport)) : gmap string (list LocationReport) :=
  <[deviceId := (default [] (m !! deviceId) ++ [l])%list]> m.

(** [POST /location], the specification's [ReportLocation]; [now] is the
    value of [Timestamp.now()]. *)
Definition post_location (userId : string) (lat lng : coord) (now : nat)
    (s : state) : outcome * state :=
  match users_deviceId s !! userId with
  | None => (Next (ExpressError "You don't have a device id!" (Some 404)), s)
  | Some deviceId =>
      let location := mkLocation lat lng now in
      let s1 := set_devices (push_location deviceId location) s in
      let s2 := set_users_locationRequest (delete userId) s1 in
      (Send 200 (Text "Location sent"), s2)
  end.

Definition ReportLocation := post_location.

(** [POST /reset-detected-faces]. *)
Definition post_reset_detected_faces (userId : string) (s : state)
    : outcome * state :=
  (Send 200 (Text "Successful"), set_users_detectedFaces (delete userId) s).

(** ** Matcher *)

Definition threshold : Q := Qmake 6 10.

(** [ref.set(list)] for a list value: the store keeps no empty list, so
    setting one removes the node, as [set(null)] does. *)
Definition set_list {A : Type} (key : string) (l : list A)
    (m : gmap string (list A)) : gmap string (list A) :=
  match l with
  | [] => delete key m
  | _ :: _ => <[key := l]> m
  end.

(** [POST /recognise-face], the specification's [RecogniseFace].
    [deviceId] is [req.query.deviceId]; [userIdResult.val()] is [null]
    when the node [device-user/<deviceId>] is absent. *)
Definition post_recognise_face (deviceId : option string) (imageFile : image)
    (s : state) : outcome * state :=
  let userId := device_user s !! path_segment "undefined" deviceId in
  match findOne userId s with
  | None => (Next (ExpressError "No user found." (Some 401)), s)
  | Some faces =>
      let transformed_faces :=
        map (fun f => mkLabeled (label f) (descriptions f)) faces in
      match FaceMatcher transformed_faces threshold with
      | inl e => (Next e, s)
      | inr findBestMatch =>
          let detections := detectAllFaces imageFile in
          let results := map findBestMatch detections in
          let labelList := map fm_label results in
          (Send 200 (Results results),
           set_users_detectedFaces
             (set_list (path_segment "null" userId) labelList) s)
      end
  end.

Definition RecogniseFace := post_recognise_face.

(** ** Template store and enrolment *)

(** The loop over [images] of [POST /new-face-base64]:
    [descriptions.push(detections.descriptor)] raises a [TypeError] when
    [detections] is [undefined]. *)
Fixpoint describe_images (images : list image) (descriptions : list descriptor)
    : js_error + list descriptor :=
  match images with
  | [] => inr descriptions
  | img :: rest =>
      match detectSingleFace img with
      | None =>
          inl (TypeError "Cannot read properties of undefined (reading 'descriptor')")
      | Some d => describe_images rest (descriptions ++ [d])%list
      end
  end.

(** [POST /new-face-base64], the specification's [EnrollFace].  The three
    arguments are the buffers decoded from the request fields [encoded],
    [encoded2] and [encoded3]. *)
Definition post_new_face_base64 (userId : string)
    (encoded encoded2 encoded3 : image) (lbl : string) (s : state)
    : outcome * state :=
  let images := [encoded; encoded2; encoded3] in
  let '(existingUser, s1) :=
    match findOne (Some userId) s with
    | Some faces => (faces, s)
    | None => ([], set_User (<[userId := []]>) s)
    end in
  match describe_images images [] with
  | inl e => (Next e, s1)
  | inr descriptions =>
      let face := mkFace (next_id s1) lbl descriptions in
      let s2 := set_next_id S s1 in
      let s3 := set_User (<[userId := (existingUser ++ [face])%list]>) s2 in
      (Send 200 (SuccessMessage "Successfully updated"), s3)
  end.

Definition EnrollFace := post_new_face_base64.

(** [GET /faces], the specification's [ListFaces], for a request that
    names its user. *)
Definition get_faces (userId : string) (s : state) : outcome * state :=
  let '(user, s1) :=
    match findOne (Some userId) s with
    | Some faces => (faces, s)
    | None => ([], set_User (<[userId := []]>) s)
    end in
  let faceArray := map (fun face => (_id face, label face)) user in
  (Send 200 (FaceArray faceArray), s1).

(** [{ $pull: { faces: { _id: faceId } } }]. *)
Definition pull_face (faceId : nat) (faces : list Face) : list Face :=
  filter (fun f => _id f ≠ faceId) faces.

(** [POST /delete-face], the specification's [DeleteFace]. *)
Definition post_delete_face (userId : string) (faceId : nat) (s : state)
    : outcome * state :=
  match findOne (Some userId) s with
  | None => (Next (ExpressError "No user found." (Some 401)), s)
  | Some faces =>
      (Send 200 (Text "Successfully deleted"),
       set_User (<[userId := pull_face faceId faces]>) s)
  end.

Definition DeleteFace := post_delete_face.

(** ** Requests and runs *)

Inductive request : Type :=
  | ReqSetLocationRequest (deviceId : option string)
  | ReqLocation (userId : string) (lat lng : coord) (now : nat)
  | ReqResetDetectedFaces (userId : string)
  | ReqRecogniseFace (deviceId : option string) (imageFile : image)
  | ReqDeviceId (userId newDeviceId : string)
  | ReqNewFaceBase64 (userId : string) (encoded encoded2 encoded3 : image)
      (lbl : string)
  | ReqFaces (userId : string)
  | ReqDeleteFace (userId : string) (faceId : nat).

Definition handle (r : request) (s : state) : outcome * state :=
  match r with
  | ReqSetLocationRequest d => get_set_location_request d s
  | ReqLocation u la ln t => post_location u la ln t s
  | ReqResetDetectedFaces u => post_reset_detected_faces u s
  | ReqRecogniseFace d img => post_recognise_face d img s
  | ReqDeviceId u d => post_deviceId u d s
  | ReqNewFaceBase64 u e1 e2 e3 l => post_new_face_base64 u e1 e2 e3 l s
  | ReqFaces u => get_faces u s
  | ReqDeleteFace u f => post_delete_face u f s
  end.

(** The state after a sequence of requests, served one after the other. *)
Definition run (rs : list request) (s : state) : state :=
  foldl (fun st r => snd (handle r st)) s rs.

(** The state after a sequence of [Rebind] calls [(userId, newDeviceId)]. *)
Definition rebinds (calls : list (string * string)) (s : state) : state :=
  foldl (fun st c => snd (Rebind c.1 c.2 st)) s calls.

(** The registry is consistent when its two directions are inverse
    partial functions. *)
Definition registry_inverse (s : state) : Prop :=
  ∀ u d, ResolveDeviceByUser s u = Some d ↔ ResolveUserByDevice s d = Some u.

(** How a call ends: with an error of a given kind, or with status 200. *)
Definition fails_with (kind : js_error -> Prop) (r : outcome * state) : Prop :=
  ∃ e, r.1 = Next e ∧ kind e.

Definition succeeds (r : outcome * state) : Prop :=
  ∃ b, r.1 = Send 200 b.

(** ** Notions used by the properties of request sequences *)

(** The ids MongoDB assigned to the templates of a state: within one user's
    collection no id occurs twice, and every id is below the next one to be
    assigned. *)
Definition fresh_ids (s : state) : Prop :=
  ∀ u faces, User s !! u = Some faces →
    NoDup (map _id faces) ∧ ∀ f, f ∈ faces → (_id f < next_id s)%nat.

(** The user whose document a request reads or writes in the [User]
    collection by its own id: the three template endpoints. *)
Definition template_user (r : request) : option string :=
  match r with
  | ReqNewFaceBase64 u _ _ _ _ => Some u
  | ReqFaces u => Some u
  | ReqDeleteFace u _ => Some u
  | _ => None
  end.

(** The registry holds keys of the store only: every bound device id and
    every user id stored with it is a valid key, so that the nodes under
    [device-user/] are the entries of [device_user], one level deep. *)
Definition flat_registry (s : state) : bool :=
  forallb (fun du => valid_key du.1 && valid_key du.2)
          (map_to_list (device_user s)).

End Backend.

(** ** The matcher of face-api.js

    Modelled from the library's documentation: [FaceMatcher] belongs to
    face-api.js and is not among the sources.  Its constructor refuses an
    empty list of inputs; [computeMeanDistance] is the sum of the Euclidean
    distances from the query to a label's descriptors divided by their
    number ([descriptors.length || 1]); [matchDescriptor] reduces the
    labels' candidates with [best.distance < curr.distance ? best : curr];
    [findBestMatch] keeps the best candidate when its distance is below the
    threshold and answers [unknown], with that distance, otherwise.
    Distances are taken exact, as rationals; [euclideanDistance] itself is a
    variable. *)
Section FaceApi.

Context {descriptor : Type}.

Variable euclideanDistance : descriptor -> descriptor -> Q.

Definition Qltb (x y : Q) : bool :=
  (Qnum x * QDen y <? Qnum y * QDen x)%Z.

Definition computeMeanDistance (queryDescriptor : descriptor)
    (descriptors : list descriptor) : Q :=
  Qdiv
    (fold_left Qplus
       (map (fun d => euclideanDistance d queryDescriptor) descriptors)
       (inject_Z 0))
    (inject_Z (Z.of_nat (match length descriptors with
                         | O => 1
                         | S _ => length descriptors
                         end))).

Definition candidate (queryDescriptor : descriptor)
    (ld : @LabeledFaceDescriptors descriptor) : FaceMatch :=
  mkFaceMatch (lfd_label ld)
    (computeMeanDistance queryDescriptor (lfd_descriptors ld)).

Definition pick_best (best curr : FaceMatch) : FaceMatch :=
  if Qltb (fm_distance best) (fm_distance curr) then best else curr.

Definition matchDescriptor (first : @LabeledFaceDescriptors descriptor)
    (rest : list (@LabeledFaceDescriptors descriptor))
    (queryDescriptor : descriptor) : FaceMatch :=
  fold_left pick_best (map (candidate queryDescriptor) rest)
    (candidate queryDescriptor first).

Definition findBestMatch (first : @LabeledFaceDescriptors descriptor)
    (rest : list (@LabeledFaceDescriptors descriptor))
    (distanceThreshold : Q) (queryDescriptor : descriptor) : FaceMatch :=
  let bestMatch := matchDescriptor first rest queryDescriptor in
  if Qltb (fm_distance bestMatch) distanceThreshold
  then bestMatch
  else mkFaceMatch "unknown" (fm_distance bestMatch).

Definition faceapi_FaceMatcher
    (inputs : list (@LabeledFaceDescriptors descriptor))
    (distanceThreshold : Q) : js_error + (descriptor -> FaceMatch) :=
  match inputs with
  | [] => inl (LibraryError "FaceMatcher.constructor - expected atleast one input")
  | first :: rest => inr (findBestMatch first rest distanceThreshold)
  end.

(** The claim's reading, for comparison: the smallest distance from the
    probe to any reference descriptor of any label. *)
Definition distances_to (queryDescriptor : descriptor)
    (inputs : list (@LabeledFaceDescriptors descriptor)) : list Q :=
  concat (map (fun ld => map (fun d => euclideanDistance d queryDescriptor)
                             (lfd_descriptors ld)) inputs).

End FaceApi.

(** ** A concrete instance

    Images and descriptors are numbered; image [0] shows no face, any other
    image [n] shows one face with descriptor [n].  Coordinates are integers.
    The matcher is a stand-in that labels every probe with the first
    template's label. *)
Module Scenario.

Definition detect (img : nat) : option nat :=
  match img with
  | O => None
  | S _ => Some img
  end.

Definition detect_all (img : nat) : list nat :=
  match img with
  | O => []
  | S _ => [img]
  end.

Definition matcher (inputs : list (@LabeledFaceDescriptors nat)) (t : Q)
    : js_error + (nat -> @FaceMatch) :=
  match inputs with
  | [] => inl (LibraryError "no reference descriptors")
  | i :: _ => inr (fun _ => mkFaceMatch (lfd_label i) 0)
  end.

Definition st : Type := @state nat Z.

Definition empty : st := init.

Definition rebind (u d : string) (s : st) : @outcome * st := Rebind u d s.

Definition enroll (u : string) (e1 e2 e3 : nat) (l : string) (s : st)
    : @outcome * st :=
  EnrollFace detect u e1 e2 e3 l s.

(** [user1] holds the device [AB12CD]. *)
Definition bound : st := (rebind "user1" "AB12CD" empty).2.

(** [user1] has enrolled [Alice] once, from the images [1], [2], [3]. *)
Definition enrolled : st := (enroll "user1" 1 2 3 "Alice" empty).2.

(** Requests of the concrete instance, and the state after serving a
    sequence of them from the empty stores. *)
Definition req : Type := @request nat Z.

Definition serve (rs : list req) : st :=
  run detect detect_all matcher rs empty.

(** [user1] takes the device [AB12CD], enrols [Alice] and is asked for a
    location. *)
Definition history : list req :=
  [ReqDeviceId "user1" "AB12CD";
   ReqNewFaceBase64 "user1" 1 2 3 "Alice";
   ReqSetLocationRequest (Some "AB12CD")].

End Scenario.

(** ** A concrete gallery

    Descriptors are vectors of dimension one, written as rationals, whose
    Euclidean distance is the absolute difference.  An image shows one face,
    whose descriptor is the image's number. *)
Module Gallery.

Definition distance (a b : Q) : Q := Qabs (a - b).

Definition detect (img : Q) : option Q := Some img.

Definition detect_all (img : Q) : list Q := [img].

Definition st : Type := @state Q Z.

Definition req : Type := @request Q Z.

Definition serve (rs : list req) : st :=
  run detect detect_all (faceapi_FaceMatcher distance) rs init.

Definition recognise (d : string) (img : Q) (s : st) : @outcome * st :=
  RecogniseFace detect_all (faceapi_FaceMatcher distance) (Some d) img s.

(** [user1] holds [AB12CD] and has enrolled [Alice] from one sample close
    to the origin and two far from it. *)
Definition spread : st :=
  serve [ReqDeviceId "user1" "AB12CD";
         ReqNewFaceBase64 "user1" (1 # 10) (15 # 10) (15 # 10) "Alice"].

(** [user1] holds [AB12CD] and has enrolled [Alice] from three samples at
    distance 0.7 from the origin. *)
Definition far : st :=
  serve [ReqDeviceId "user1" "AB12CD";
         ReqNewFaceBase64 "user1" (7 # 10) (7 # 10) (7 # 10) "Alice"].

End Gallery.

(** ** Proof steps

    One entry of the inverse property of the registry after the writes of a
    rebinding: either it is an entry of the state before, or both sides are
    decided by the facts at hand. *)
Ltac inverse_case Hinv :=
  first
    [ apply Hinv
    | let Hx := fresh "Hx" in
      split; intros Hx; try apply Hinv in Hx; congruence ].

(** * Properties *)

(** ** Binding registry *)

Section Registry.

Context {descriptor coord : Type}.

Implicit Types (s : @state descriptor coord) (u d : string).

(** The three ways [POST /deviceId] ends. *)
Lemma post_deviceId_bad_length u d s :
  String.length d ≠ 6 →
  post_deviceId u d s =
    (Next (ExpressError "Device id must be 6 characters!" None), s).
Proof.
  intros Hlen. unfold post_deviceId.
  destruct (String.length d =? 6)%nat eqn:E; [|done].
  apply Nat.eqb_eq in E. done.
Qed.

Lemma post_deviceId_owned u d s owner :
  String.length d = 6 →
  device_user s !! d = Some owner →
  post_deviceId u d s =
    (Next (ExpressError "This id is already owned!" (Some 409)), s).
Proof.
  intros Hlen Hown. unfold post_deviceId.
  rewrite Hlen, Hown. done.
Qed.

Lemma post_deviceId_free u d s :
  String.length d = 6 →
  device_user s !! d = None →
  post_deviceId u d s =
    (Send 200 (SuccessMessage "Successfully updated"),
     set_device_user (<[d := u]>)
       (set_users_deviceId (<[u := d]>)
          (match users_deviceId s !! u with
           | Some old => set_device_user (delete old) s
           | None => s
           end))).
Proof.
  intros Hlen Hfree. unfold post_deviceId.
  rewrite Hlen, Hfree. done.
Qed.

(** Case analysis on a call, for the proofs below. *)
Lemma post_deviceId_cases u d s :
  (String.length d ≠ 6 ∧ (post_deviceId u d s).2 = s ∧
     ∃ e, (post_deviceId u d s).1 = Next e) ∨
  (String.length d = 6 ∧ is_Some (device_user s !! d) ∧
     (post_deviceId u d s).2 = s ∧
     (post_deviceId u d s).1 =
       Next (ExpressError "This id is already owned!" (Some 409))) ∨
  (String.length d = 6 ∧ device_user s !! d = None ∧
     ∃ b, (post_deviceId u d s).1 = Send 200 b).
Proof.
  destruct (decide (String.length d = 6)) as [Hlen|Hlen].
  - destruct (device_user s !! d) as [owner|] eqn:Hd.
    + right; left. rewrite (post_deviceId_owned u d s owner) by done.
      eauto.
    + right; right. rewrite post_deviceId_free by done. eauto.
  - left. rewrite post_deviceId_bad_length by done. eauto.
Qed.

(** A successful call keeps the two directions inverse. *)
Lemma post_deviceId_inverse u d s :
  registry_inverse s → registry_inverse (post_deviceId u d s).2.
Proof.
  intros Hinv.
  destruct (post_deviceId_cases u d s) as [(_ & -> & _)|[(_ & _ & -> & _)|(Hlen & Hfree & _)]];
    [done|done|].
  rewrite post_deviceId_free by done. cbn [snd].
  unfold registry_inverse, ResolveDeviceByUser, ResolveUserByDevice in *.
  intros u' d'.
  destruct (users_deviceId s !! u) as [old|] eqn:Hold; cbn.
  - assert (Hold' : device_user s !! old = Some u) by (by apply Hinv).
    assert (old ≠ d) by congruence.
    destruct (decide (u' = u)) as [->|Hu], (decide (d' = d)) as [->|Hd];
      simplify_map_eq.
    all: try (destruct (decide (d' = old)) as [->|Hdo]; simplify_map_eq).
    all: inverse_case Hinv.
  - destruct (decide (u' = u)) as [->|Hu], (decide (d' = d)) as [->|Hd];
      simplify_map_eq.
    all: inverse_case Hinv.
Qed.

Lemma init_inverse : registry_inverse (@init descriptor coord).
Proof.
  intros u d. unfold ResolveDeviceByUser, ResolveUserByDevice. cbn.
  rewrite !lookup_empty. done.
Qed.

Lemma rebinds_snoc calls u d s :
  rebinds (calls ++ [(u, d)]) s = (Rebind u d (rebinds calls s)).2.
Proof. unfold rebinds. rewrite foldl_app. done. Qed.

Lemma rebinds_inverse calls s :
  registry_inverse s → registry_inverse (rebinds calls s).
Proof.
  intros Hs. induction calls as [|[u d] calls IH] using rev_ind; [done|].
  rewrite rebinds_snoc. by apply post_deviceId_inverse.
Qed.

(** C1. After any sequence of [Rebind] calls from the empty registry, the
    device-to-user and user-to-device maps are inverse to each other:
    resolving a bound user's device gives back the user, resolving a bound
    device's user gives back the device, no two users hold one device and no
    two devices are held by one user. *)
Theorem rebind_bijection (calls : list (string * string)) :
  let s := rebinds calls (@init descriptor coord) in
  (∀ u d, ResolveDeviceByUser s u = Some d →
     ResolveDeviceByUser s u ≫= ResolveUserByDevice s = Some u) ∧
  (∀ d u, ResolveUserByDevice s d = Some u →
     ResolveUserByDevice s d ≫= ResolveDeviceByUser s = Some d) ∧
  (∀ u1 u2 d, ResolveDeviceByUser s u1 = Some d →
     ResolveDeviceByUser s u2 = Some d → u1 = u2) ∧
  (∀ d1 d2 u, ResolveUserByDevice s d1 = Some u →
     ResolveUserByDevice s d2 = Some u → d1 = d2).
Proof.
  intros s.
  assert (Hinv : registry_inverse s) by apply rebinds_inverse, init_inverse.
  repeat split.
  - intros u d Hu. rewrite Hu. cbn. by apply Hinv.
  - intros d u Hd. rewrite Hd. cbn. by apply Hinv.
  - intros u1 u2 d H1 H2. apply Hinv in H1, H2. congruence.
  - intros d1 d2 u H1 H2. apply Hinv in H1, H2. congruence.
Qed.

(** C2, as the code has it.  For a 6-character [newDeviceId], [Rebind] fails
    with Conflict exactly when the device is bound to some user, the caller
    included.  So once [Rebind u d] has succeeded on a free device, a
    [Rebind u2 d] by any user fails with Conflict and the device still
    resolves to [u]. *)
Theorem rebind_conflict_iff_owned u d s (Hlen : String.length d = 6) :
  (fails_with is_Conflict (Rebind u d s) ↔ is_Some (ResolveUserByDevice s d)) ∧
  (∀ u2, ResolveUserByDevice s d = None →
     succeeds (Rebind u d s) ∧
     fails_with is_Conflict (Rebind u2 d (Rebind u d s).2) ∧
     ResolveUserByDevice (Rebind u2 d (Rebind u d s).2).2 d = Some u).
Proof.
  unfold Rebind, ResolveUserByDevice. split.
  - destruct (device_user s !! d) as [owner|] eqn:Hd.
    + rewrite (post_deviceId_owned u d s owner) by done.
      split; [eauto|]. intros _. eexists. split; [done|]. done.
    + rewrite post_deviceId_free by done.
      split; [|by intros [? ?]]. intros (e & He & _). done.
  - intros u2 Hfree. rewrite post_deviceId_free by done. cbn [snd].
    set (s1 := set_device_user _ _).
    assert (Hs1 : device_user s1 !! d = Some u)
      by (subst s1; cbn; apply lookup_insert_eq).
    rewrite (post_deviceId_owned u2 d s1 u) by done.
    split; [by eexists|]. split; [|done]. eexists. split; done.
Qed.

(** C3. [Rebind] is all or nothing.  A call that ends with an error (wrong
    length, or device owned) leaves the whole state as it was.  A call that
    succeeds has written the forward binding, the reverse binding, and has
    cleared the reverse entry of the device the user held before. *)
Theorem rebind_atomic u d s :
  (∀ e s', Rebind u d s = (Next e, s') → s' = s) ∧
  (String.length d ≠ 6 → ∃ e, Rebind u d s = (Next e, s)) ∧
  (String.length d = 6 → is_Some (ResolveUserByDevice s d) →
     ∃ e, Rebind u d s = (Next e, s) ∧ is_Conflict e) ∧
  (∀ st b s', Rebind u d s = (Send st b, s') →
     ResolveDeviceByUser s' u = Some d ∧
     ResolveUserByDevice s' d = Some u ∧
     (∀ old, ResolveDeviceByUser s u = Some old → old ≠ d →
        ResolveUserByDevice s' old = None) ∧
     (registry_inverse s → ∀ old, ResolveDeviceByUser s u = Some old →
        ResolveUserByDevice s' old = None)).
Proof.
  unfold Rebind, ResolveUserByDevice, ResolveDeviceByUser.
  split; [|split; [|split]].
  - intros e s' Hr.
    destruct (post_deviceId_cases u d s)
      as [(_ & Hs & _)|[(_ & _ & Hs & _)|(_ & _ & b & Hb)]];
      rewrite Hr in *; cbn in *; congruence.
  - intros Hlen. rewrite post_deviceId_bad_length by done. eauto.
  - intros Hlen [owner Hown].
    rewrite (post_deviceId_owned u d s owner) by done.
    eexists. split; done.
  - intros st b s' Hr.
    destruct (post_deviceId_cases u d s)
      as [(_ & _ & e & He)|[(_ & _ & _ & He)|(Hlen & Hfree & _)]];
      [rewrite Hr in He; done..|].
    rewrite post_deviceId_free in Hr by done.
    injection Hr as _ _ <-. cbn.
    assert (Hclear : ∀ old, users_deviceId s !! u = Some old → old ≠ d →
              device_user
                (match users_deviceId s !! u with
                 | Some old0 => set_device_user (delete old0) s
                 | None => s
                 end) !! old = None).
    { intros old Hold Hne. rewrite Hold. cbn. apply lookup_delete_eq. }
    split; [|split; [|split]].
    + destruct (users_deviceId s !! u); cbn; apply lookup_insert_eq.
    + apply lookup_insert_eq.
    + intros old Hold Hne. rewrite lookup_insert_ne by done. by apply Hclear.
    + intros Hinv old Hold.
      assert (old ≠ d).
      { intros ->. apply Hinv in Hold.
        unfold ResolveUserByDevice in Hold. congruence. }
      rewrite lookup_insert_ne by done. by apply Hclear.
Qed.

End Registry.

(** The scenario of the specification: [Rebind("user1", "AB12CD")] succeeds,
    [Rebind("user2", "AB12CD")] then fails with Conflict, and the device
    still resolves to [user1]. *)
Lemma rebind_conflict_iff_owned_witness :
  String.length "AB12CD" = 6 ∧
  succeeds (Scenario.rebind "user1" "AB12CD" Scenario.empty) ∧
  fails_with is_Conflict (Scenario.rebind "user2" "AB12CD" Scenario.bound) ∧
  ResolveUserByDevice
    (Scenario.rebind "user2" "AB12CD" Scenario.bound).2 "AB12CD" = Some "user1".
Proof.
  split; [reflexivity|].
  destruct (rebind_conflict_iff_owned (descriptor := nat) (coord := Z)
              "user1" "AB12CD" Scenario.empty eq_refl) as [_ H].
  exact (H "user2" eq_refl).
Defined.

(** The claim's "if and only if" fails when the caller already holds the
    device: the call is refused with Conflict although the device is bound
    to no other user. *)
Lemma rebind_conflict_same_user_cex :
  ¬ (fails_with is_Conflict (Scenario.rebind "user1" "AB12CD" Scenario.bound) ↔
     ∃ owner, ResolveUserByDevice Scenario.bound "AB12CD" = Some owner ∧
              owner ≠ "user1").
Proof.
  intros [Hfail _].
  destruct Hfail as (owner & Hown & Hne).
  - eexists. split; vm_compute; reflexivity.
  - vm_compute in Hown. congruence.
Qed.

(** ** Location relay *)

Section Relay.

Context {descriptor coord : Type}.

Implicit Types (s : @state descriptor coord) (u d : string).

(** C5, as the code has it, for device ids that are keys of the store in a
    registry that holds such keys only.  [RequestLocation] answers a missing
    or empty [deviceId] with the status-less error "You must provide a
    device id!", which the error middleware sends as 500 and which is not
    NotFound; it fails with NotFound (404) when a [deviceId] that is a valid
    key is bound to no user; in every other case it sets the resolved user's
    location-request flag to true and succeeds.  Nothing else changes. *)
Theorem request_location_cases (deviceId : option string) s
    (Hflat : flat_registry s = true)
    (Hkey : ∀ d, deviceId = Some d → d ≠ "" → valid_key d = true) :
  match deviceId with
  | None | Some EmptyString =>
      RequestLocation deviceId s =
        (Next (ExpressError "You must provide a device id!" None), s) ∧
      fails_with (fun e => status_of e = 500) (RequestLocation deviceId s) ∧
      ¬ fails_with is_NotFound (RequestLocation deviceId s)
  | Some d =>
      match ResolveUserByDevice s d with
      | None =>
          fails_with is_NotFound (RequestLocation deviceId s) ∧
          (RequestLocation deviceId s).2 = s
      | Some u =>
          succeeds (RequestLocation deviceId s) ∧
          (RequestLocation deviceId s).2 =
            set_users_locationRequest (<[u := true]>) s ∧
          users_locationRequest (RequestLocation deviceId s).2 !! u = Some true
      end
  end.
Proof.
  unfold RequestLocation, ResolveUserByDevice.
  destruct deviceId as [[|a d]|]; cbn.
  - split; [done|]. split; [by eexists|]. intros (e & [= <-] & He). done.
  - destruct (device_user s !! String a d) as [u|]; cbn.
    + split; [by eexists|]. split; [done|]. apply lookup_insert_eq.
    + split; [|done]. eexists. split; done.
  - split; [done|]. split; [by eexists|]. intros (e & [= <-] & He). done.
Qed.

(** C6. [ReportLocation] fails with NotFound when the user has no bound
    device and then changes nothing.  Otherwise it succeeds, the bound
    device's reports are the former ones followed by the new report
    [{lat, lng, time = now}], every former report keeps its position, the
    other devices' reports are untouched, and the user's location-request
    flag is cleared. *)
Theorem report_location_appends u (la ln : coord) (now : nat) s :
  match ResolveDeviceByUser s u with
  | None =>
      fails_with is_NotFound (ReportLocation u la ln now s) ∧
      (ReportLocation u la ln now s).2 = s
  | Some d =>
      let s' := (ReportLocation u la ln now s).2 in
      let before := default [] (devices s !! d) in
      succeeds (ReportLocation u la ln now s) ∧
      devices s' !! d = Some (before ++ [mkLocation la ln now])%list ∧
      (∀ i r, before !! i = Some r → default [] (devices s' !! d) !! i = Some r) ∧
      (∀ d', d' ≠ d → devices s' !! d' = devices s !! d') ∧
      users_locationRequest s' !! u = None
  end.
Proof.
  unfold ReportLocation, ResolveDeviceByUser, post_location.
  destruct (users_deviceId s !! u) as [d|]; cbn.
  - unfold push_location.
    split; [by eexists|]. split; [apply lookup_insert_eq|].
    split; [|split].
    + intros i r Hi. rewrite lookup_insert_eq. cbn.
      by apply lookup_app_l_Some.
    + intros d' Hne. by apply lookup_insert_ne.
    + apply lookup_delete_eq.
  - split; [|done]. eexists. split; done.
Qed.

End Relay.

(** [user1] holds [AB12CD]; a request for the device [XY34ZT], a valid key
    that nobody holds, is answered with NotFound and changes nothing. *)
Lemma request_location_cases_witness :
  flat_registry Scenario.bound = true ∧
  valid_key "XY34ZT" = true ∧
  fails_with is_NotFound (RequestLocation (Some "XY34ZT") Scenario.bound) ∧
  (RequestLocation (Some "XY34ZT") Scenario.bound).2 = Scenario.bound.
Proof.
  refine (conj eq_refl (conj eq_refl _)).
  refine (request_location_cases (descriptor := nat) (coord := Z)
            (Some "XY34ZT") Scenario.bound eq_refl _).
  intros d [= <-] _. reflexivity.
Defined.

(** A missing [deviceId], and an empty one, are not answered with NotFound. *)
Lemma request_location_missing_cex :
  ¬ fails_with is_NotFound (RequestLocation None Scenario.empty) ∧
  ¬ fails_with is_NotFound (RequestLocation (Some "") Scenario.empty).
Proof.
  split; intros (e & He & Hnf); vm_compute in He;
    injection He as <-; vm_compute in Hnf; discriminate.
Qed.

(** ** Template store and enrolment *)

Section Enrolment.

Context {image descriptor coord : Type}.

Variable detectSingleFace : image -> option descriptor.

Implicit Types (s : @state descriptor coord) (u l : string).

(** The loop visits the images from first to last: it returns the
    descriptors in input order when every image shows a face, and raises at
    the first image that shows none. *)
Lemma describe_images_mapM (images : list image) (acc : list descriptor) :
  describe_images detectSingleFace images acc =
    match mapM detectSingleFace images with
    | Some ds => inr (acc ++ ds)%list
    | None =>
        inl (TypeError "Cannot read properties of undefined (reading 'descriptor')")
    end.
Proof.
  revert acc. induction images as [|img rest IH]; intros acc; cbn.
  - by rewrite app_nil_r.
  - destruct (detectSingleFace img) as [d|]; cbn; [|done].
    rewrite IH. destruct (mapM detectSingleFace rest); cbn; [|done].
    by rewrite <- app_assoc.
Qed.

(** The user's document as the handler holds it after its first lines: the
    stored one, or a fresh one without faces. *)
Lemma enroll_face_unfold u (e1 e2 e3 : image) l s :
  let s1 := match User s !! u with
            | Some _ => s
            | None => set_User (<[u := []]>) s
            end in
  let old := default [] (User s !! u) in
  post_new_face_base64 detectSingleFace u e1 e2 e3 l s =
    match mapM detectSingleFace [e1; e2; e3] with
    | Some ds =>
        (Send 200 (SuccessMessage "Successfully updated"),
         set_User (<[u := (old ++ [mkFace (next_id s) l ds])%list]>)
           (set_next_id S s1))
    | None =>
        (Next (TypeError "Cannot read properties of undefined (reading 'descriptor')"),
         s1)
    end.
Proof.
  intros s1 old. unfold post_new_face_base64.
  rewrite describe_images_mapM. subst s1 old. cbn [findOne].
  destruct (User s !! u) as [faces|];
    destruct (mapM detectSingleFace [e1; e2; e3]); done.
Qed.

(** What the enrolment does with its three samples, in full.  They are
    processed in input order.  When each yields a detection the call
    succeeds and appends one template holding the descriptors in that order.
    When some sample yields no detection the read of its descriptor raises,
    the call ends with an error and no template is appended; the user's
    collection is the one from before the call (empty if the record was
    created by this call). *)
Lemma enroll_face_undetected_fails u (e1 e2 e3 : image) l s :
  let r := EnrollFace detectSingleFace u e1 e2 e3 l s in
  let old := default [] (User s !! u) in
  match mapM detectSingleFace [e1; e2; e3] with
  | Some ds =>
      succeeds r ∧
      User r.2 !! u = Some (old ++ [mkFace (next_id s) l ds])%list
  | None =>
      fails_with (fun e => status_of e = 500) r ∧
      User r.2 !! u = Some old
  end.
Proof.
  intros r old. subst r. unfold EnrollFace.
  rewrite enroll_face_unfold.
  destruct (mapM detectSingleFace [e1; e2; e3]) as [ds|]; cbn [fst snd].
  - split; [by eexists|]. cbn. apply lookup_insert_eq.
  - split; [eexists; split; done|].
    subst old. destruct (User s !! u) as [faces|] eqn:Hu; cbn; [done|].
    apply lookup_insert_eq.
Qed.

(** C9. One call takes three samples.  When all three yield a detection the
    call succeeds and the user's collection is the former one (empty when
    the user had no record) followed by exactly one template with the given
    label and the three descriptors in order, whatever labels the former
    templates carry; the other users' documents are untouched. *)
Theorem enroll_face_three_samples u (e1 e2 e3 : image) l s (d1 d2 d3 : descriptor)
    (H1 : detectSingleFace e1 = Some d1)
    (H2 : detectSingleFace e2 = Some d2)
    (H3 : detectSingleFace e3 = Some d3) :
  let r := EnrollFace detectSingleFace u e1 e2 e3 l s in
  let old := default [] (User s !! u) in
  succeeds r ∧
  User r.2 !! u = Some (old ++ [mkFace (next_id s) l [d1; d2; d3]])%list ∧
  length (default [] (User r.2 !! u)) = S (length old) ∧
  (∀ u', u' ≠ u → User r.2 !! u' = User s !! u').
Proof.
  intros r old. subst r. unfold EnrollFace.
  rewrite enroll_face_unfold. cbn [mapM]. rewrite H1, H2, H3. cbn.
  split; [by eexists|]. rewrite lookup_insert_eq.
  split; [done|]. split.
  - subst old. cbn [from_option id]. rewrite length_app. cbn [length]. apply Nat.add_1_r.
  - intros u' Hne. rewrite lookup_insert_ne by done.
    destruct (User s !! u) eqn:Hu; cbn; [done|].
    by rewrite lookup_insert_ne.
Qed.

(** What [$pull] keeps: the templates with another id, in their order. *)
Lemma pull_face_elem (faceId : nat) (faces : list (@Face descriptor)) f :
  f ∈ pull_face faceId faces ↔ f ∈ faces ∧ _id f ≠ faceId.
Proof. unfold pull_face. rewrite list_elem_of_filter. tauto. Qed.

Lemma pull_face_no_match (faceId : nat) (faces : list (@Face descriptor)) :
  (∀ f, f ∈ faces → _id f ≠ faceId) → pull_face faceId faces = faces.
Proof.
  intros Hall. unfold pull_face. induction faces as [|f faces IH]; [done|].
  rewrite filter_cons_True by (apply Hall; left).
  f_equal. apply IH. intros g Hg. apply Hall. by right.
Qed.

(** C8, as the code has it.  [DeleteFace] fails with Unauthorized (401,
    "No user found."), not NotFound, when the user has no record, and then
    changes nothing.  Otherwise it succeeds and the user's collection keeps,
    in order, exactly the templates whose id differs from [faceId]; when no
    template has that id the collection is unchanged. *)
Theorem delete_face_cases u (faceId : nat) s :
  match User s !! u with
  | None =>
      fails_with is_Unauthorized (DeleteFace u faceId s) ∧
      ¬ fails_with is_NotFound (DeleteFace u faceId s) ∧
      (DeleteFace u faceId s).2 = s
  | Some faces =>
      let s' := (DeleteFace u faceId s).2 in
      succeeds (DeleteFace u faceId s) ∧
      User s' !! u = Some (pull_face faceId faces) ∧
      (∀ f, f ∈ pull_face faceId faces ↔ f ∈ faces ∧ _id f ≠ faceId) ∧
      pull_face faceId faces `sublist_of` faces ∧
      ((∀ f, f ∈ faces → _id f ≠ faceId) → User s' !! u = Some faces) ∧
      (∀ u', u' ≠ u → User s' !! u' = User s !! u')
  end.
Proof.
  unfold DeleteFace, post_delete_face. cbn [findOne].
  destruct (User s !! u) as [faces|] eqn:Hu; cbn.
  - split; [by eexists|]. rewrite lookup_insert_eq.
    split; [done|]. split; [apply pull_face_elem|].
    split; [apply sublist_filter|]. split.
    + intros Hall. by rewrite pull_face_no_match.
    + intros u' Hne. by apply lookup_insert_ne.
  - split; [eexists; split; done|]. split; [|done].
    intros (e & [= <-] & He). done.
Qed.

End Enrolment.

(** Enrolling [Alice] a second time, from three images that each show a
    face, appends a second template labelled [Alice]. *)
Lemma enroll_face_three_samples_witness :
  Scenario.detect 4 = Some 4 ∧
  Scenario.detect 5 = Some 5 ∧
  Scenario.detect 6 = Some 6 ∧
  User (Scenario.enroll "user1" 4 5 6 "Alice" Scenario.enrolled).2 !! "user1" =
    Some [mkFace 0 "Alice" [1; 2; 3]; mkFace 1 "Alice" [4; 5; 6]].
Proof.
  repeat (split; [reflexivity|]).
  pose proof (enroll_face_three_samples Scenario.detect
                "user1" 4 5 6 "Alice" Scenario.enrolled 4 5 6
                eq_refl eq_refl eq_refl) as (_ & H & _).
  exact H.
Defined.

(** C7.  The specification has a sample without detection skipped and the
    template built from the other samples.  The code does not do that: when
    the second of three images shows no face, the unguarded read of
    [detections.descriptor] raises, the call ends with that error, and the
    user's collection holds no template, in particular none made of the two
    descriptors that were found. *)
Lemma enroll_face_skip_cex :
  let r := Scenario.enroll "user1" 1 0 2 "Alice" Scenario.empty in
  r.1 = Next (TypeError "Cannot read properties of undefined (reading 'descriptor')") ∧
  User r.2 !! "user1" = Some [] ∧
  ¬ (succeeds r ∧
     ∃ f, f ∈ default [] (User r.2 !! "user1") ∧ descriptions f = [1; 2]).
Proof.
  split; [vm_compute; reflexivity|].
  split; [vm_compute; reflexivity|].
  intros [(b & Hb) _]. vm_compute in Hb. discriminate.
Qed.

(** Deleting a face of a user without a record is not answered with
    NotFound. *)
Lemma delete_face_no_record_cex :
  ¬ fails_with is_NotFound (DeleteFace "user1" 0 Scenario.empty).
Proof.
  intros (e & He & Hnf). vm_compute in He.
  injection He as <-. vm_compute in Hnf. discriminate.
Qed.

(** ** Matcher: the no-user path *)

Section Matcher.

Context {image descriptor coord : Type}.

Variable detectSingleFace : image -> option descriptor.
Variable detectAllFaces : image -> list descriptor.
Variable FaceMatcher :
  list (@LabeledFaceDescriptors descriptor) -> Q ->
  js_error + (descriptor -> FaceMatch).

Implicit Types (s : @state descriptor coord) (u d : string).

(** Only [POST /deviceId] writes under [device-user/], and it writes
    6-character keys only. *)
Lemma handle_device_length (r : request) s :
  (∀ d u, device_user s !! d = Some u → String.length d = 6) →
  ∀ d u, device_user (handle detectSingleFace detectAllFaces FaceMatcher r s).2 !! d = Some u → String.length d = 6.
Proof.
  intros Hs d0 u0. destruct r; cbn [handle].
  - unfold get_set_location_request.
    destruct deviceId as [[|a d]|]; [apply Hs| |apply Hs].
    destruct (device_user s !! String a d); apply Hs.
  - unfold post_location.
    destruct (users_deviceId s !! userId); apply Hs.
  - apply Hs.
  - unfold post_recognise_face.
    destruct (findOne _ s); [|apply Hs].
    destruct (FaceMatcher _ _); apply Hs.
  - destruct (post_deviceId_cases userId newDeviceId s)
      as [(_ & -> & _)|[(_ & _ & -> & _)|(Hlen & Hfree & _)]];
      [apply Hs..|].
    rewrite post_deviceId_free by done. cbn.
    destruct (decide (d0 = newDeviceId)) as [->|Hne]; [done|].
    rewrite lookup_insert_ne by done.
    destruct (users_deviceId s !! userId) as [old|]; cbn; [|apply Hs].
    destruct (decide (d0 = old)) as [->|Hne'].
    + by rewrite lookup_delete_eq.
    + rewrite lookup_delete_ne by done. apply Hs.
  - rewrite enroll_face_unfold.
    destruct (mapM detectSingleFace _), (User s !! userId); apply Hs.
  - unfold get_faces. cbn [findOne].
    destruct (User s !! userId); apply Hs.
  - unfold post_delete_face. cbn [findOne].
    destruct (User s !! userId); apply Hs.
Qed.

Lemma run_snoc (rs : list request) (r : request) s :
  run detectSingleFace detectAllFaces FaceMatcher (rs ++ [r]) s =
    (handle detectSingleFace detectAllFaces FaceMatcher r
       (run detectSingleFace detectAllFaces FaceMatcher rs s)).2.
Proof. unfold run. by rewrite foldl_app. Qed.

Lemma run_device_length (rs : list request) d u :
  device_user (run detectSingleFace detectAllFaces FaceMatcher rs
                 (@init descriptor coord)) !! d = Some u →
  String.length d = 6.
Proof.
  revert d u. induction rs as [|r rs IH] using rev_ind.
  - intros d u. cbn. by rewrite lookup_empty.
  - rewrite run_snoc. by apply handle_device_length.
Qed.


End Matcher.


(** ** Scenarios of the specification, evaluated *)

(** [RequestLocation("AB12CD")] with [AB12CD] unbound is answered with
    NotFound. *)
Example request_location_unbound :
  fails_with is_NotFound (RequestLocation (Some "AB12CD") Scenario.empty).
Proof. eexists. split; vm_compute; reflexivity. Qed.

(** Once [user1] holds [AB12CD], a request for that device raises the
    user's flag, and the user's next report clears it. *)
Example request_then_report :
  let s1 := (RequestLocation (Some "AB12CD") Scenario.bound).2 in
  let s2 := (ReportLocation "user1" 41%Z 29%Z 1000 s1).2 in
  users_locationRequest s1 !! "user1" = Some true ∧
  users_locationRequest s2 !! "user1" = None ∧
  devices s2 !! "AB12CD" = Some [mkLocation 41%Z 29%Z 1000].
Proof. repeat split; vm_compute; reflexivity. Qed.

(** Two reports of [user1] are kept in the order they were sent. *)
Example reports_in_append_order :
  let s1 := (ReportLocation "user1" 41%Z 29%Z 1000 Scenario.bound).2 in
  let s2 := (ReportLocation "user1" 42%Z 30%Z 1001 s1).2 in
  devices s2 !! "AB12CD" =
    Some [mkLocation 41%Z 29%Z 1000; mkLocation 42%Z 30%Z 1001].
Proof. vm_compute. reflexivity. Qed.

(** A user who moves to another device frees the first one. *)
Example rebind_frees_old_device :
  let s := (Scenario.rebind "user1" "XY34ZT" Scenario.bound).2 in
  ResolveDeviceByUser s "user1" = Some "XY34ZT" ∧
  ResolveUserByDevice s "XY34ZT" = Some "user1" ∧
  ResolveUserByDevice s "AB12CD" = None.
Proof. repeat split; vm_compute; reflexivity. Qed.

(** Deleting the first of two templates keeps the second; deleting an id
    that no template carries changes nothing. *)
Example delete_face_by_id :
  let s := (Scenario.enroll "user1" 4 5 6 "Bob" Scenario.enrolled).2 in
  User (DeleteFace "user1" 0 s).2 !! "user1" = Some [mkFace 1 "Bob" [4; 5; 6]] ∧
  User (DeleteFace "user1" 9 s).2 !! "user1" = User s !! "user1".
Proof. split; vm_compute; reflexivity. Qed.

(** * Properties of request sequences

    What holds after any sequence of requests to the eight endpoints, served
    one after the other from the empty stores. *)

Section Sequences.

Context {image descriptor coord : Type}.

Variable detectSingleFace : image -> option descriptor.
Variable detectAllFaces : image -> list descriptor.
Variable FaceMatcher :
  list (@LabeledFaceDescriptors descriptor) -> Q ->
  js_error + (descriptor -> FaceMatch).

Implicit Types (s : @state descriptor coord) (u d : string)
  (r : @request image coord) (rs : list (@request image coord)).

(** Every endpoint but [POST /deviceId] leaves both directions of the
    registry as they are. *)
Lemma handle_registry_unchanged r s :
  (∀ u d, r ≠ ReqDeviceId u d) →
  device_user (handle detectSingleFace detectAllFaces FaceMatcher r s).2
    = device_user s ∧
  users_deviceId (handle detectSingleFace detectAllFaces FaceMatcher r s).2
    = users_deviceId s.
Proof.
  intros Hr. destruct r; cbn [handle].
  - unfold get_set_location_request.
    destruct deviceId as [[|a d]|]; [done| |done].
    destruct (device_user s !! String a d); done.
  - unfold post_location. destruct (users_deviceId s !! userId); done.
  - done.
  - unfold post_recognise_face.
    destruct (findOne _ s); [|done]. destruct (FaceMatcher _ _); done.
  - by destruct (Hr userId newDeviceId).
  - rewrite enroll_face_unfold.
    destruct (mapM detectSingleFace _), (User s !! userId); done.
  - unfold get_faces. cbn [findOne]. destruct (User s !! userId); done.
  - unfold post_delete_face. cbn [findOne]. destruct (User s !! userId); done.
Qed.

Lemma request_rebind_or_other r :
  (∃ u d, r = ReqDeviceId u d) ∨ (∀ u d, r ≠ ReqDeviceId u d).
Proof. destruct r; eauto; right; done. Qed.

Lemma handle_registry_inverse r s :
  registry_inverse s →
  registry_inverse (handle detectSingleFace detectAllFaces FaceMatcher r s).2.
Proof.
  intros Hinv.
  destruct (request_rebind_or_other r) as [(u & d & ->)|Hother].
  - by apply post_deviceId_inverse.
  - destruct (handle_registry_unchanged r s) as [Hdu Hud]; [done|].
    unfold registry_inverse, ResolveDeviceByUser, ResolveUserByDevice in *.
    rewrite Hdu, Hud. done.
Qed.

Lemma run_registry_inverse rs s :
  registry_inverse s →
  registry_inverse (run detectSingleFace detectAllFaces FaceMatcher rs s).
Proof.
  intros Hs. induction rs as [|r rs IH] using rev_ind; [done|].
  rewrite run_snoc. by apply handle_registry_inverse.
Qed.

(** Whatever requests were served, the two directions of the registry are
    inverse to each other: a user's device resolves back to that user and a
    device's user holds that device, so no device has two holders and no
    user two devices. *)
Theorem registry_consistent_after_requests rs :
  let s := run detectSingleFace detectAllFaces FaceMatcher rs init in
  (∀ u d, ResolveDeviceByUser s u = Some d ↔ ResolveUserByDevice s d = Some u) ∧
  (∀ u1 u2 d, ResolveDeviceByUser s u1 = Some d →
     ResolveDeviceByUser s u2 = Some d → u1 = u2) ∧
  (∀ d1 d2 u, ResolveUserByDevice s d1 = Some u →
     ResolveUserByDevice s d2 = Some u → d1 = d2).
Proof.
  intros s.
  assert (Hinv : registry_inverse s)
    by apply run_registry_inverse, init_inverse.
  split; [exact Hinv|]. split.
  - intros u1 u2 d H1 H2. apply Hinv in H1, H2. congruence.
  - intros d1 d2 u H1 H2. apply Hinv in H1, H2. congruence.
Qed.

(** Only [POST /deviceId] writes the registry: after any other request every
    device resolves to the user it resolved to before, and every user to the
    same device. *)
Theorem only_rebind_writes_registry r s
    (Hr : ∀ u d, r ≠ ReqDeviceId u d) :
  let s' := (handle detectSingleFace detectAllFaces FaceMatcher r s).2 in
  (∀ d, ResolveUserByDevice s' d = ResolveUserByDevice s d) ∧
  (∀ u, ResolveDeviceByUser s' u = ResolveDeviceByUser s u).
Proof.
  intros s'. subst s'. unfold ResolveUserByDevice, ResolveDeviceByUser.
  destruct (handle_registry_unchanged r s Hr) as [-> ->]. done.
Qed.

(** No request unbinds a user: a user who holds a device before a request
    holds one after it, and the same one unless the request is that user's
    own rebinding. *)
Theorem users_stay_bound r s u
    (Hu : is_Some (ResolveDeviceByUser s u)) :
  let s' := (handle detectSingleFace detectAllFaces FaceMatcher r s).2 in
  is_Some (ResolveDeviceByUser s' u) ∧
  ((∀ d, r ≠ ReqDeviceId u d) →
     ResolveDeviceByUser s' u = ResolveDeviceByUser s u).
Proof.
  intros s'. subst s'.
  destruct (request_rebind_or_other r) as [(u0 & d0 & ->)|Hother].
  - cbn [handle].
    destruct (post_deviceId_cases u0 d0 s)
      as [(_ & -> & _)|[(_ & _ & -> & _)|(Hlen & Hfree & _)]]; [done..|].
    rewrite post_deviceId_free by done.
    unfold ResolveDeviceByUser in *. cbn.
    destruct (decide (u = u0)) as [->|Hne].
    + split; [|by intros Hd; destruct (Hd d0)].
      destruct (users_deviceId s !! u0); cbn; rewrite lookup_insert_eq; done.
    + destruct (users_deviceId s !! u0); cbn;
        rewrite lookup_insert_ne by done; done.
  - unfold ResolveDeviceByUser.
    destruct (handle_registry_unchanged r s Hother) as [_ ->]. done.
Qed.

(** One rebinding keeps the number of bound devices equal to the number of
    bound users. *)
Lemma post_deviceId_sizes (u d : string) s :
  registry_inverse s →
  size (device_user s) = size (users_deviceId s) →
  size (device_user (post_deviceId u d s).2)
    = size (users_deviceId (post_deviceId u d s).2).
Proof.
  intros Hinv Hsize.
  destruct (post_deviceId_cases u d s)
    as [(_ & -> & _)|[(_ & _ & -> & _)|(Hlen & Hfree & _)]]; [done..|].
  rewrite post_deviceId_free by done. cbn.
  destruct (users_deviceId s !! u) as [old|] eqn:Hold; cbn.
  - assert (Hold' : device_user s !! old = Some u) by (by apply Hinv).
    assert (Hne : old ≠ d) by congruence.
    rewrite map_size_insert_None
      by (rewrite lookup_delete_ne by done; done).
    rewrite map_size_delete_Some by eauto.
    rewrite map_size_insert_Some by eauto.
    assert (size (device_user s) ≠ 0).
    { intros Hz. apply map_size_empty_inv in Hz. rewrite Hz in Hold'.
      by rewrite lookup_empty in Hold'. }
    lia.
  - rewrite !map_size_insert_None by done. lia.
Qed.

(** Whatever requests were served, as many devices are bound as users are. *)
Theorem as_many_devices_as_users rs :
  let s := run detectSingleFace detectAllFaces FaceMatcher rs init in
  size (device_user s) = size (users_deviceId s).
Proof.
  cbn zeta. induction rs as [|r rs IH] using rev_ind; [done|].
  rewrite run_snoc.
  destruct (request_rebind_or_other r) as [(u & d & ->)|Hother].
  - apply post_deviceId_sizes; [|done].
    apply run_registry_inverse, init_inverse.
  - destruct (handle_registry_unchanged r
                (run detectSingleFace detectAllFaces FaceMatcher rs init)
                Hother) as [-> ->].
    done.
Qed.

(** ** Location relay over request sequences *)

(** Asking twice for a device's location is the same as asking once: the
    second call gives the same answer and leaves the state of the first. *)
Theorem request_location_idempotent (deviceId : option string) s :
  RequestLocation deviceId (RequestLocation deviceId s).2
    = RequestLocation deviceId s.
Proof.
  unfold RequestLocation, get_set_location_request.
  destruct deviceId as [[|a d]|]; [done| |done].
  destruct (device_user s !! String a d) as [u|] eqn:Hd; cbn; rewrite Hd;
    [|done].
  unfold set_users_locationRequest. cbn. by rewrite insert_insert_eq.
Qed.

(** One request never removes or reorders a report already stored. *)
Lemma handle_reports_prefix r s d :
  default [] (devices s !! d) `prefix_of`
    default [] (devices (handle detectSingleFace detectAllFaces FaceMatcher r s).2 !! d).
Proof.
  destruct r; cbn [handle].
  - unfold get_set_location_request.
    destruct deviceId as [[|a d0]|]; [done| |done].
    destruct (device_user s !! String a d0); done.
  - unfold post_location.
    destruct (users_deviceId s !! userId) as [d0|]; [|done]. cbn.
    unfold push_location.
    destruct (decide (d0 = d)) as [->|Hne].
    + rewrite lookup_insert_eq. cbn. by apply prefix_app_r.
    + by rewrite lookup_insert_ne.
  - done.
  - unfold post_recognise_face.
    destruct (findOne _ s); [|done]. destruct (FaceMatcher _ _); done.
  - destruct (post_deviceId_cases userId newDeviceId s)
      as [(_ & -> & _)|[(_ & _ & -> & _)|(Hlen & Hfree & _)]]; [done..|].
    rewrite post_deviceId_free by done. cbn.
    destruct (users_deviceId s !! userId); done.
  - rewrite enroll_face_unfold.
    destruct (mapM detectSingleFace _), (User s !! userId); done.
  - unfold get_faces. cbn [findOne]. destruct (User s !! userId); done.
  - unfold post_delete_face. cbn [findOne]. destruct (User s !! userId); done.
Qed.

(** The reports of a device are append-only: whatever requests follow, the
    reports a device has now stay where they are, in the same order, at the
    head of the device's later reports.  In particular a rebinding neither
    moves nor drops the reports of the device left behind. *)
Theorem reports_are_append_only rs s d :
  default [] (devices s !! d) `prefix_of`
    default [] (devices (run detectSingleFace detectAllFaces FaceMatcher rs s) !! d).
Proof.
  induction rs as [|r rs IH] using rev_ind; [done|].
  rewrite run_snoc. etrans; [exact IH|]. apply handle_reports_prefix.
Qed.

(** The request/report handshake.  In a state reached by requests, let a
    device resolve to a user.  A location request for the device succeeds and
    raises that user's flag; the user's report then succeeds, is stored last
    under that very device, and clears the flag. *)
Theorem request_report_handshake rs d u (la ln : coord) (now : nat)
    (Hd : ResolveUserByDevice
            (run detectSingleFace detectAllFaces FaceMatcher rs init) d = Some u) :
  let s := run detectSingleFace detectAllFaces FaceMatcher rs init in
  let s1 := (RequestLocation (Some d) s).2 in
  let s2 := (ReportLocation u la ln now s1).2 in
  succeeds (RequestLocation (Some d) s) ∧
  users_locationRequest s1 !! u = Some true ∧
  succeeds (ReportLocation u la ln now s1) ∧
  devices s2 !! d = Some (default [] (devices s !! d) ++ [mkLocation la ln now])%list ∧
  users_locationRequest s2 !! u = None.
Proof.
  intros s s1 s2.
  assert (Hinv : registry_inverse s) by apply run_registry_inverse, init_inverse.
  assert (Hu : users_deviceId s !! u = Some d) by (by apply Hinv).
  assert (Hlen : String.length d = 6) by (by apply run_device_length in Hd).
  unfold ResolveUserByDevice in Hd. fold s in Hd.
  assert (Hs1 : RequestLocation (Some d) s =
                (Send 200 (Text "Successful"),
                 set_users_locationRequest (<[u := true]>) s)).
  { unfold RequestLocation, get_set_location_request.
    destruct d as [|a d']; [done|]. by rewrite Hd. }
  subst s2 s1. rewrite Hs1. cbn [snd].
  unfold ReportLocation, post_location. cbn. rewrite Hu. cbn.
  split; [by eexists|]. split; [apply lookup_insert_eq|].
  split; [by eexists|]. split.
  - unfold push_location. apply lookup_insert_eq.
  - apply lookup_delete_eq.
Qed.

(** Rebinding keeps every bound user bound. *)
Lemma post_deviceId_keeps_bound (u0 d0 u : string) s :
  is_Some (users_deviceId s !! u) →
  is_Some (users_deviceId (post_deviceId u0 d0 s).2 !! u).
Proof.
  intros Hu.
  destruct (post_deviceId_cases u0 d0 s)
    as [(_ & -> & _)|[(_ & _ & -> & _)|(Hlen & Hfree & _)]]; [done..|].
  rewrite post_deviceId_free by done. cbn.
  destruct (decide (u = u0)) as [->|Hne].
  - destruct (users_deviceId s !! u0); cbn; rewrite lookup_insert_eq; done.
  - destruct (users_deviceId s !! u0); cbn;
      rewrite lookup_insert_ne by done; done.
Qed.

Lemma post_deviceId_flags (u0 d0 : string) s :
  users_locationRequest (post_deviceId u0 d0 s).2 = users_locationRequest s.
Proof.
  destruct (post_deviceId_cases u0 d0 s)
    as [(_ & -> & _)|[(_ & _ & -> & _)|(Hlen & Hfree & _)]]; [done..|].
  rewrite post_deviceId_free by done. cbn.
  destruct (users_deviceId s !! u0); done.
Qed.

(** One request keeps the flags on users who hold a device. *)
Lemma handle_flags r s :
  registry_inverse s →
  (∀ u b, users_locationRequest s !! u = Some b →
     b = true ∧ is_Some (users_deviceId s !! u)) →
  ∀ u b,
    users_locationRequest
      (handle detectSingleFace detectAllFaces FaceMatcher r s).2 !! u = Some b →
    b = true ∧
    is_Some (users_deviceId
               (handle detectSingleFace detectAllFaces FaceMatcher r s).2 !! u).
Proof.
  intros Hinv Hs u b. destruct r; cbn [handle].
  - unfold get_set_location_request.
    destruct deviceId as [[|a d0]|]; [apply Hs| |apply Hs].
    destruct (device_user s !! String a d0) as [u0|] eqn:Hd; [|apply Hs].
    cbn. destruct (decide (u = u0)) as [->|Hne].
    + rewrite lookup_insert_eq. intros [= <-]. split; [done|].
      apply Hinv in Hd. unfold ResolveDeviceByUser in Hd. eauto.
    + rewrite lookup_insert_ne by done. apply Hs.
  - unfold post_location.
    destruct (users_deviceId s !! userId) as [d0|] eqn:Hu0; [|apply Hs].
    cbn. intros [Hne Hb]%lookup_delete_Some. by apply Hs.
  - apply Hs.
  - unfold post_recognise_face.
    destruct (findOne _ s); [|apply Hs]. destruct (FaceMatcher _ _); apply Hs.
  - rewrite post_deviceId_flags. intros Hb.
    destruct (Hs u b Hb) as [-> Hbound]. split; [done|].
    by apply post_deviceId_keeps_bound.
  - rewrite enroll_face_unfold.
    destruct (mapM detectSingleFace _), (User s !! userId); apply Hs.
  - unfold get_faces. cbn [findOne]. destruct (User s !! userId); apply Hs.
  - unfold post_delete_face. cbn [findOne].
    destruct (User s !! userId); apply Hs.
Qed.

(** Whatever requests were served, a location-request flag that is stored is
    [true] and belongs to a user who holds a device. *)
Theorem flagged_users_hold_a_device rs u b :
  let s := run detectSingleFace detectAllFaces FaceMatcher rs init in
  users_locationRequest s !! u = Some b →
  b = true ∧ is_Some (ResolveDeviceByUser s u).
Proof.
  cbn zeta. unfold ResolveDeviceByUser. revert u b.
  induction rs as [|r rs IH] using rev_ind.
  - intros u b. cbn. by rewrite lookup_empty.
  - rewrite run_snoc. apply handle_flags; [|exact IH].
    apply run_registry_inverse, init_inverse.
Qed.

(** ** Rebinding, composed *)

(** The state after a user who holds [old] has moved to the free device
    [d]. *)
Lemma post_deviceId_move (u old d : string) s :
  users_deviceId s !! u = Some old →
  String.length d = 6 →
  device_user s !! d = None →
  post_deviceId u d s =
    (Send 200 (SuccessMessage "Successfully updated"),
     set_device_user (<[d := u]>)
       (set_users_deviceId (<[u := d]>) (set_device_user (delete old) s))).
Proof.
  intros Hold Hlen Hfree. rewrite post_deviceId_free by done. by rewrite Hold.
Qed.

(** A device that its holder has left can be taken by anyone.  In a state
    reached by requests, once the holder of [old] has moved to a free
    6-character device, a rebinding of any user to [old] succeeds, and [old]
    then resolves to that user. *)
Theorem released_device_can_be_taken rs (u old d u2 : string)
    (Hold : ResolveDeviceByUser
              (run detectSingleFace detectAllFaces FaceMatcher rs init) u
            = Some old)
    (Hlen : String.length d = 6)
    (Hfree : ResolveUserByDevice
               (run detectSingleFace detectAllFaces FaceMatcher rs init) d
             = None) :
  let s := run detectSingleFace detectAllFaces FaceMatcher rs init in
  let s1 := (Rebind u d s).2 in
  succeeds (Rebind u d s) ∧
  ResolveUserByDevice s1 old = None ∧
  succeeds (Rebind u2 old s1) ∧
  ResolveUserByDevice (Rebind u2 old s1).2 old = Some u2.
Proof.
  intros s s1.
  assert (Hinv : registry_inverse s) by apply run_registry_inverse, init_inverse.
  assert (Hold' : device_user s !! old = Some u) by (by apply Hinv).
  assert (Hlen' : String.length old = 6)
    by (by apply run_device_length in Hold').
  unfold ResolveDeviceByUser, ResolveUserByDevice in *. fold s in Hold, Hfree.
  assert (Hne : old ≠ d) by congruence.
  subst s1. unfold Rebind.
  rewrite (post_deviceId_move u old d s) by done. cbn [snd].
  set (s1 := set_device_user _ _).
  assert (Hfree1 : device_user s1 !! old = None).
  { subst s1. cbn. rewrite lookup_insert_ne by done. apply lookup_delete_eq. }
  rewrite (post_deviceId_free u2 old s1) by done. cbn [snd].
  split; [by eexists|]. split; [done|]. split; [by eexists|].
  cbn. apply lookup_insert_eq.
Qed.


(** ** Template store over request sequences *)

(** [$pull] on a collection without repeated ids. *)
Lemma pull_face_NoDup (faceId : nat) (faces : list (@Face descriptor)) :
  NoDup (map _id faces) → NoDup (map _id (pull_face faceId faces)).
Proof.
  unfold pull_face. induction faces as [|f faces IH]; [done|].
  cbn [map]. intros [Hf Hnd]%NoDup_cons.
  destruct (decide (_id f ≠ faceId)) as [Hk|Hk].
  - rewrite filter_cons_True by done. cbn [map]. apply NoDup_cons.
    split; [|by apply IH].
    intros (g & Hg & Hin)%list_elem_of_fmap.
    apply list_elem_of_filter in Hin as [_ Hin].
    apply Hf. apply list_elem_of_fmap. eauto.
  - rewrite filter_cons_False by done. by apply IH.
Qed.

(** Deleting the id of the template appended last gives back the former
    collection, when the former ids are all different from it. *)
Lemma pull_face_last (faces : list (@Face descriptor)) (f : @Face descriptor) :
  (∀ g, g ∈ faces → _id g ≠ _id f) →
  pull_face (_id f) (faces ++ [f]) = faces.
Proof.
  intros Hall. unfold pull_face. rewrite filter_app.
  fold (pull_face (_id f) faces). rewrite pull_face_no_match by done.
  rewrite filter_cons_False by (intros Hk; done).
  rewrite filter_nil. apply app_nil_r.
Qed.

(** One request keeps the template ids distinct and below the next id. *)
Lemma handle_fresh_ids r s :
  fresh_ids s →
  fresh_ids (handle detectSingleFace detectAllFaces FaceMatcher r s).2.
Proof.
  intros Hs. destruct r; cbn [handle].
  - unfold get_set_location_request.
    destruct deviceId as [[|a d0]|]; [done| |done].
    destruct (device_user s !! String a d0); done.
  - unfold post_location. destruct (users_deviceId s !! userId); done.
  - done.
  - unfold post_recognise_face.
    destruct (findOne _ s); [|done]. destruct (FaceMatcher _ _); done.
  - destruct (post_deviceId_cases userId newDeviceId s)
      as [(_ & -> & _)|[(_ & _ & -> & _)|(Hlen & Hfree & _)]]; [done..|].
    rewrite post_deviceId_free by done.
    destruct (users_deviceId s !! userId); done.
  - rewrite enroll_face_unfold.
    assert (Hold : NoDup (map _id (default [] (User s !! userId))) ∧
                   ∀ f, f ∈ default [] (User s !! userId) →
                        (_id f < next_id s)%nat).
    { destruct (User s !! userId) as [faces|] eqn:Hu; cbn.
      - by apply (Hs userId).
      - split; [constructor|]. intros f Hf. by apply elem_of_nil in Hf. }
    destruct Hold as [Hnd Hlt].
    assert (Hn1 : next_id (match User s !! userId with
                           | Some _ => s
                           | None => set_User (<[userId := []]>) s
                           end) = next_id s)
      by (destruct (User s !! userId); done).
    destruct (mapM detectSingleFace _) as [ds|]; cbn [snd].
    + intros u faces. cbn. rewrite Hn1.
      destruct (decide (u = userId)) as [->|Hne].
      * rewrite lookup_insert_eq. intros [= <-]. split.
        -- rewrite map_app. cbn [map]. apply NoDup_app.
           split; [done|]. split; [|apply NoDup_singleton].
           intros x (g & -> & Hg)%list_elem_of_fmap Hx.
           apply list_elem_of_singleton in Hx. cbn in Hx.
           apply Hlt in Hg. lia.
        -- intros f [Hf|Hf]%elem_of_app.
           ++ apply Hlt in Hf. lia.
           ++ apply list_elem_of_singleton in Hf. subst f. cbn. lia.
      * rewrite lookup_insert_ne by done. intros Hu.
        assert (Hu' : User s !! u = Some faces).
        { destruct (User s !! userId); cbn in Hu; [done|].
          by rewrite lookup_insert_ne in Hu. }
        destruct (Hs u faces Hu') as [Hn Hl]. split; [done|].
        intros f Hf. apply Hl in Hf. lia.
    + intros u faces.
      destruct (User s !! userId) eqn:Hu0; [apply Hs|]. cbn.
      destruct (decide (u = userId)) as [->|Hne].
      * rewrite lookup_insert_eq. intros [= <-]. split; [constructor|].
        intros f Hf. by apply elem_of_nil in Hf.
      * rewrite lookup_insert_ne by done. apply Hs.
  - unfold get_faces. cbn [findOne].
    destruct (User s !! userId) eqn:Hu0; [done|]. cbn [snd].
    intros u faces. cbn.
    destruct (decide (u = userId)) as [->|Hne].
    + rewrite lookup_insert_eq. intros [= <-]. split; [constructor|].
      intros f Hf. by apply elem_of_nil in Hf.
    + rewrite lookup_insert_ne by done. apply Hs.
  - unfold post_delete_face. cbn [findOne].
    destruct (User s !! userId) as [faces0|] eqn:Hu0; [|done]. cbn [snd].
    intros u faces. cbn.
    destruct (decide (u = userId)) as [->|Hne].
    + rewrite lookup_insert_eq. intros [= <-].
      destruct (Hs userId faces0 Hu0) as [Hn Hl]. split.
      * by apply pull_face_NoDup.
      * intros f [Hf _]%pull_face_elem. by apply Hl.
    + rewrite lookup_insert_ne by done. apply Hs.
Qed.

Lemma run_fresh_ids rs :
  fresh_ids (run detectSingleFace detectAllFaces FaceMatcher rs init).
Proof.
  induction rs as [|r rs IH] using rev_ind.
  - intros u faces. cbn. by rewrite lookup_empty.
  - rewrite run_snoc. by apply handle_fresh_ids.
Qed.

(** Enrol, list, delete.  In a state reached by requests, after a successful
    enrolment the listing shows the user's former entries followed by the new
    template's id and label; deleting that id succeeds and gives back exactly
    the former collection, and the listing shows the former entries again. *)
Theorem enroll_list_delete_round_trip rs u (e1 e2 e3 : image) (l : string)
    (d1 d2 d3 : descriptor)
    (H1 : detectSingleFace e1 = Some d1)
    (H2 : detectSingleFace e2 = Some d2)
    (H3 : detectSingleFace e3 = Some d3) :
  let s := run detectSingleFace detectAllFaces FaceMatcher rs init in
  let before := default [] (User s !! u) in
  let entries := map (fun face => (_id face, label face)) before in
  let s1 := (EnrollFace detectSingleFace u e1 e2 e3 l s).2 in
  let s2 := (DeleteFace u (next_id s) s1).2 in
  (get_faces u s1).1 = Send 200 (FaceArray (entries ++ [(next_id s, l)])%list) ∧
  succeeds (DeleteFace u (next_id s) s1) ∧
  User s2 !! u = Some before ∧
  (get_faces u s2).1 = Send 200 (FaceArray entries).
Proof.
  intros s before entries s1 s2.
  assert (Hlt : ∀ g, g ∈ before → _id g ≠ next_id s).
  { intros g Hg. subst before.
    destruct (User s !! u) as [faces|] eqn:Hu; cbn in Hg.
    - destruct (run_fresh_ids rs u faces Hu) as [_ Hl].
      apply Hl in Hg. fold s in Hg. lia.
    - by apply elem_of_nil in Hg. }
  assert (Hs1 : User s1 !! u
                = Some (before ++ [mkFace (next_id s) l [d1; d2; d3]])%list).
  { subst s1. unfold EnrollFace. rewrite enroll_face_unfold.
    cbn [mapM]. rewrite H1, H2, H3. cbn. apply lookup_insert_eq. }
  assert (Hs2 : User s2 !! u = Some before).
  { subst s2. unfold DeleteFace, post_delete_face. cbn [findOne].
    rewrite Hs1. cbn. rewrite lookup_insert_eq. f_equal.
    apply (pull_face_last before (mkFace (next_id s) l [d1; d2; d3])).
    exact Hlt. }
  split; [|split; [|split]].
  - unfold get_faces. cbn [findOne]. rewrite Hs1. cbn [fst].
    by rewrite map_app.
  - unfold DeleteFace, post_delete_face. cbn [findOne]. rewrite Hs1.
    by eexists.
  - exact Hs2.
  - unfold get_faces. cbn [findOne]. by rewrite Hs2.
Qed.

(** A user's templates are written by that user's own template requests
    only: any other request, and any template request of another user,
    leaves the user's document as it is. *)
Theorem templates_are_per_user r s u
    (Hr : template_user r ≠ Some u) :
  User (handle detectSingleFace detectAllFaces FaceMatcher r s).2 !! u
    = User s !! u.
Proof.
  destruct r; cbn [handle]; cbn in Hr.
  - unfold get_set_location_request.
    destruct deviceId as [[|a d0]|]; [done| |done].
    destruct (device_user s !! String a d0); done.
  - unfold post_location. destruct (users_deviceId s !! userId); done.
  - done.
  - unfold post_recognise_face.
    destruct (findOne _ s); [|done]. destruct (FaceMatcher _ _); done.
  - destruct (post_deviceId_cases userId newDeviceId s)
      as [(_ & -> & _)|[(_ & _ & -> & _)|(Hlen & Hfree & _)]]; [done..|].
    rewrite post_deviceId_free by done.
    destruct (users_deviceId s !! userId); done.
  - assert (Hne : userId ≠ u) by congruence.
    rewrite enroll_face_unfold.
    destruct (mapM detectSingleFace _), (User s !! userId); cbn;
      rewrite ?lookup_insert_ne by done; done.
  - assert (Hne : userId ≠ u) by congruence.
    unfold get_faces. cbn [findOne].
    destruct (User s !! userId); cbn; rewrite ?lookup_insert_ne by done; done.
  - assert (Hne : userId ≠ u) by congruence.
    unfold post_delete_face. cbn [findOne].
    destruct (User s !! userId); cbn; rewrite ?lookup_insert_ne by done; done.
Qed.

(** Listing is a read, up to the creation of a missing record: the response
    carries the id and label of every template in collection order, the
    user's collection afterwards is the former one (the empty one when there
    was no record), other users are untouched, and a second listing gives the
    same answer and the same state as the first. *)
Theorem list_faces_reads u s :
  let before := default [] (User s !! u) in
  (get_faces u s).1
    = Send 200 (FaceArray (map (fun face => (_id face, label face)) before)) ∧
  User (get_faces u s).2 !! u = Some before ∧
  (∀ u', u' ≠ u → User (get_faces u s).2 !! u' = User s !! u') ∧
  (is_Some (User s !! u) → (get_faces u s).2 = s) ∧
  get_faces u (get_faces u s).2 = get_faces u s.
Proof.
  intros before. subst before. unfold get_faces. cbn [findOne].
  destruct (User s !! u) as [faces|] eqn:Hu; cbn.
  - rewrite Hu. repeat split; done.
  - rewrite lookup_insert_eq. split; [done|]. split; [done|].
    split; [intros u' Hne; by apply lookup_insert_ne|].
    split; [by intros [? ?]|done].
Qed.

(** ** Recognition, and what failures leave behind *)

(** The success path of [RecogniseFace].  In a registry of valid keys, when
    the device resolves to a user who has a document and the matcher can be
    built from that user's templates (each template giving its label and its
    descriptors, in collection order, with threshold 0.6), the response
    carries one match per detected face, in detection order; the user's
    [detectedFaces] is overwritten, whatever it held, with the labels of
    these matches, and is removed when no face was detected; other users'
    [detectedFaces] and all templates are untouched; and the user's reset
    then clears the stored labels. *)
Theorem recognise_face_labels (d u : string) (img : image) s
    (faces : list (@Face descriptor)) (findBestMatch : descriptor -> FaceMatch)
    (Hflat : flat_registry s = true)
    (Hd : ResolveUserByDevice s d = Some u)
    (Hu : User s !! u = Some faces)
    (Hm : FaceMatcher
            (map (fun f => mkLabeled (label f) (descriptions f)) faces)
            threshold = inr findBestMatch) :
  let r := RecogniseFace detectAllFaces FaceMatcher (Some d) img s in
  let results := map findBestMatch (detectAllFaces img) in
  r.1 = Send 200 (Results results) ∧
  users_detectedFaces r.2 !! u
    = match results with
      | [] => None
      | _ :: _ => Some (map fm_label results)
      end ∧
  length results = length (detectAllFaces img) ∧
  (∀ u', u' ≠ u → users_detectedFaces r.2 !! u' = users_detectedFaces s !! u') ∧
  User r.2 = User s ∧
  users_detectedFaces (post_reset_detected_faces u r.2).2 !! u = None.
Proof.
  intros r results. subst r results.
  unfold RecogniseFace, post_recognise_face, ResolveUserByDevice in *.
  cbn [path_segment default from_option id]. rewrite Hd. cbn [findOne].
  rewrite Hu, Hm. cbn [fst snd].
  split; [done|]. split; [|split; [by rewrite length_map|split; [|split]]].
  - destruct (map findBestMatch (detectAllFaces img)) as [|m ms]; cbn.
    + apply lookup_delete_eq.
    + apply lookup_insert_eq.
  - intros u' Hne.
    destruct (map findBestMatch (detectAllFaces img)) as [|m ms]; cbn.
    + by apply lookup_delete_ne.
    + by apply lookup_insert_ne.
  - done.
  - cbn. apply lookup_delete_eq.
Qed.

(** A request that ends with an error has changed nothing, with one
    exception: an enrolment that fails for a user without a document leaves
    the empty document it created before looking at the images. *)
Theorem failed_request_changes_nothing r s (e : js_error)
    (Hfail : (handle detectSingleFace detectAllFaces FaceMatcher r s).1 = Next e) :
  let s' := (handle detectSingleFace detectAllFaces FaceMatcher r s).2 in
  s' = s ∨
  (∃ u e1 e2 e3 l, r = ReqNewFaceBase64 u e1 e2 e3 l ∧
                   User s !! u = None ∧
                   s' = set_User (<[u := []]>) s).
Proof.
  intros s'. subst s'. destruct r; cbn [handle] in *.
  - left. unfold get_set_location_request in *.
    destruct deviceId as [[|a d0]|]; [done| |done].
    destruct (device_user s !! String a d0); done.
  - left. unfold post_location in *.
    destruct (users_deviceId s !! userId); done.
  - done.
  - left. unfold post_recognise_face in *.
    destruct (findOne _ s); [|done]. destruct (FaceMatcher _ _); done.
  - left.
    destruct (post_deviceId_cases userId newDeviceId s)
      as [(_ & -> & _)|[(_ & _ & -> & _)|(_ & _ & b & Hb)]]; [done..|].
    rewrite Hb in Hfail. done.
  - rewrite enroll_face_unfold in *.
    destruct (mapM detectSingleFace _); [done|]. cbn [snd].
    destruct (User s !! userId) eqn:Hu; [by left|].
    right. by exists userId, encoded, encoded2, encoded3, lbl.
  - unfold get_faces in Hfail. cbn [findOne] in Hfail.
    destruct (User s !! userId); done.
  - left. unfold post_delete_face in *. cbn [findOne] in *.
    destruct (User s !! userId); done.
Qed.

(** No request removes a user's document: once a user has one (after a
    listing or an enrolment, even a failed one), every later state has it,
    and that user's [DeleteFace] is then never refused with the 401. *)
Theorem user_documents_persist r s u (faceId : nat)
    (Hu : is_Some (User s !! u)) :
  let s' := (handle detectSingleFace detectAllFaces FaceMatcher r s).2 in
  is_Some (User s' !! u) ∧ succeeds (DeleteFace u faceId s').
Proof.
  intros s'.
  assert (Hs' : is_Some (User s' !! u)).
  { subst s'. destruct r; cbn [handle].
    - unfold get_set_location_request.
      destruct deviceId as [[|a d0]|]; [done| |done].
      destruct (device_user s !! String a d0); done.
    - unfold post_location. destruct (users_deviceId s !! userId); done.
    - done.
    - unfold post_recognise_face.
      destruct (findOne _ s); [|done]. destruct (FaceMatcher _ _); done.
    - destruct (post_deviceId_cases userId newDeviceId s)
        as [(_ & -> & _)|[(_ & _ & -> & _)|(Hlen & Hfree & _)]]; [done..|].
      rewrite post_deviceId_free by done.
      destruct (users_deviceId s !! userId); done.
    - rewrite enroll_face_unfold.
      destruct (mapM detectSingleFace _), (User s !! userId) eqn:Hu0; cbn;
        try done; destruct (decide (u = userId)) as [->|Hne];
        rewrite ?lookup_insert_eq, ?lookup_insert_ne by done; done.
    - unfold get_faces. cbn [findOne].
      destruct (User s !! userId) eqn:Hu0; cbn; [done|].
      destruct (decide (u = userId)) as [->|Hne];
        rewrite ?lookup_insert_eq, ?lookup_insert_ne by done; done.
    - unfold post_delete_face. cbn [findOne].
      destruct (User s !! userId) eqn:Hu0; cbn; [|done].
      destruct (decide (u = userId)) as [->|Hne];
        rewrite ?lookup_insert_eq, ?lookup_insert_ne by done; done. }
  split; [done|]. destruct Hs' as [faces Hf].
  unfold DeleteFace, post_delete_face. cbn [findOne]. rewrite Hf. by eexists.
Qed.

End Sequences.

(** ** The properties of request sequences at the concrete instance *)

Lemma only_rebind_writes_registry_witness :
  (∀ u d, (ReqLocation "user1" 41%Z 29%Z 1000 : Scenario.req) ≠ ReqDeviceId u d) ∧
  ResolveUserByDevice
    (handle Scenario.detect Scenario.detect_all Scenario.matcher
       (ReqLocation "user1" 41%Z 29%Z 1000) Scenario.bound).2 "AB12CD"
  = ResolveUserByDevice Scenario.bound "AB12CD".
Proof.
  assert (H : ∀ u d,
            (ReqLocation "user1" 41%Z 29%Z 1000 : Scenario.req) ≠ ReqDeviceId u d)
    by (intros u d; discriminate).
  split; [exact H|].
  exact (proj1 (only_rebind_writes_registry Scenario.detect Scenario.detect_all
                  Scenario.matcher _ Scenario.bound H) "AB12CD").
Defined.

Lemma users_stay_bound_witness :
  is_Some (ResolveDeviceByUser Scenario.bound "user1") ∧
  is_Some (ResolveDeviceByUser
             (handle Scenario.detect Scenario.detect_all Scenario.matcher
                (ReqDeviceId "user2" "XY34ZT") Scenario.bound).2 "user1").
Proof.
  assert (H : is_Some (ResolveDeviceByUser Scenario.bound "user1"))
    by (exists "AB12CD"; reflexivity).
  split; [exact H|].
  exact (proj1 (users_stay_bound Scenario.detect Scenario.detect_all
                  Scenario.matcher (ReqDeviceId "user2" "XY34ZT")
                  Scenario.bound "user1" H)).
Defined.

Lemma request_report_handshake_witness :
  ResolveUserByDevice (Scenario.serve [ReqDeviceId "user1" "AB12CD"]) "AB12CD"
    = Some "user1" ∧
  succeeds (RequestLocation (Some "AB12CD")
              (Scenario.serve [ReqDeviceId "user1" "AB12CD"])).
Proof.
  split; [reflexivity|].
  exact (proj1 (request_report_handshake Scenario.detect Scenario.detect_all
                  Scenario.matcher [ReqDeviceId "user1" "AB12CD"]
                  "AB12CD" "user1" 41%Z 29%Z 1000 eq_refl)).
Defined.

Lemma flagged_users_hold_a_device_witness :
  users_locationRequest (Scenario.serve Scenario.history) !! "user1" = Some true ∧
  is_Some (ResolveDeviceByUser (Scenario.serve Scenario.history) "user1").
Proof.
  split; [reflexivity|].
  exact (proj2 (flagged_users_hold_a_device Scenario.detect Scenario.detect_all
                  Scenario.matcher Scenario.history "user1" true eq_refl)).
Defined.

Lemma released_device_can_be_taken_witness :
  ResolveDeviceByUser (Scenario.serve [ReqDeviceId "user1" "AB12CD"]) "user1"
    = Some "AB12CD" ∧
  String.length "XY34ZT" = 6 ∧
  ResolveUserByDevice (Scenario.serve [ReqDeviceId "user1" "AB12CD"]) "XY34ZT"
    = None ∧
  succeeds (Rebind "user1" "XY34ZT"
              (Scenario.serve [ReqDeviceId "user1" "AB12CD"])).
Proof.
  repeat (split; [reflexivity|]).
  exact (proj1 (released_device_can_be_taken Scenario.detect
                  Scenario.detect_all Scenario.matcher
                  [ReqDeviceId "user1" "AB12CD"]
                  "user1" "AB12CD" "XY34ZT" "user2" eq_refl eq_refl eq_refl)).
Defined.


Lemma enroll_list_delete_round_trip_witness :
  Scenario.detect 4 = Some 4 ∧
  Scenario.detect 5 = Some 5 ∧
  Scenario.detect 6 = Some 6 ∧
  User (DeleteFace "user1" 1
          (Scenario.enroll "user1" 4 5 6 "Bob"
             (Scenario.serve Scenario.history)).2).2 !! "user1"
  = Some [mkFace 0 "Alice" [1; 2; 3]].
Proof.
  repeat (split; [reflexivity|]).
  exact (proj1 (proj2 (proj2 (enroll_list_delete_round_trip Scenario.detect
                  Scenario.detect_all Scenario.matcher Scenario.history
                  "user1" 4 5 6 "Bob" 4 5 6 eq_refl eq_refl eq_refl)))).
Defined.

Lemma templates_are_per_user_witness :
  template_user (ReqDeleteFace "user2" 0 : Scenario.req) ≠ Some "user1" ∧
  User (handle Scenario.detect Scenario.detect_all Scenario.matcher
          (ReqDeleteFace "user2" 0) Scenario.enrolled).2 !! "user1"
  = User Scenario.enrolled !! "user1".
Proof.
  assert (H : template_user (ReqDeleteFace "user2" 0 : Scenario.req)
              ≠ Some "user1") by discriminate.
  split; [exact H|].
  exact (templates_are_per_user Scenario.detect Scenario.detect_all
           Scenario.matcher (ReqDeleteFace "user2" 0) Scenario.enrolled
           "user1" H).
Defined.

Lemma recognise_face_labels_witness :
  flat_registry (Scenario.serve Scenario.history) = true ∧
  ResolveUserByDevice (Scenario.serve Scenario.history) "AB12CD" = Some "user1" ∧
  User (Scenario.serve Scenario.history) !! "user1"
    = Some [mkFace 0 "Alice" [1; 2; 3]] ∧
  users_detectedFaces
    (RecogniseFace Scenario.detect_all Scenario.matcher (Some "AB12CD") 7
       (Scenario.serve Scenario.history)).2 !! "user1"
  = Some ["Alice"] ∧
  users_detectedFaces
    (RecogniseFace Scenario.detect_all Scenario.matcher (Some "AB12CD") 0
       (Scenario.serve Scenario.history)).2 !! "user1"
  = None.
Proof.
  refine (conj eq_refl (conj eq_refl (conj eq_refl (conj _ _)))).
  - exact (proj1 (proj2 (recognise_face_labels Scenario.detect_all
                    Scenario.matcher "AB12CD" "user1" 7
                    (Scenario.serve Scenario.history)
                    [mkFace 0 "Alice" [1; 2; 3]]
                    (fun _ => mkFaceMatch "Alice" 0)
                    eq_refl eq_refl eq_refl eq_refl))).
  - exact (proj1 (proj2 (recognise_face_labels Scenario.detect_all
                    Scenario.matcher "AB12CD" "user1" 0
                    (Scenario.serve Scenario.history)
                    [mkFace 0 "Alice" [1; 2; 3]]
                    (fun _ => mkFaceMatch "Alice" 0)
                    eq_refl eq_refl eq_refl eq_refl))).
Defined.

Lemma failed_request_changes_nothing_witness :
  (handle Scenario.detect Scenario.detect_all Scenario.matcher
     (ReqDeviceId "user2" "AB12CD") Scenario.bound).1
    = Next (ExpressError "This id is already owned!" (Some 409)) ∧
  ((handle Scenario.detect Scenario.detect_all Scenario.matcher
      (ReqDeviceId "user2" "AB12CD") Scenario.bound).2 = Scenario.bound ∨
   ∃ u e1 e2 e3 l,
     (ReqDeviceId "user2" "AB12CD" : Scenario.req) = ReqNewFaceBase64 u e1 e2 e3 l ∧
     User Scenario.bound !! u = None ∧
     (handle Scenario.detect Scenario.detect_all Scenario.matcher
        (ReqDeviceId "user2" "AB12CD") Scenario.bound).2
     = set_User (<[u := []]>) Scenario.bound).
Proof.
  split; [reflexivity|].
  exact (failed_request_changes_nothing Scenario.detect Scenario.detect_all
           Scenario.matcher (ReqDeviceId "user2" "AB12CD") Scenario.bound
           (ExpressError "This id is already owned!" (Some 409)) eq_refl).
Defined.

Lemma user_documents_persist_witness :
  is_Some (User Scenario.enrolled !! "user1") ∧
  is_Some (User (handle Scenario.detect Scenario.detect_all Scenario.matcher
                   (ReqDeleteFace "user1" 0) Scenario.enrolled).2 !! "user1").
Proof.
  assert (H : is_Some (User Scenario.enrolled !! "user1"))
    by (exists [mkFace 0 "Alice" [1; 2; 3]]; reflexivity).
  split; [exact H|].
  exact (proj1 (user_documents_persist Scenario.detect Scenario.detect_all
                  Scenario.matcher (ReqDeleteFace "user1" 0) Scenario.enrolled
                  "user1" 0 H)).
Defined.

(** ** Matcher: classification by mean distance *)

Section Classification.

Context {image descriptor coord : Type}.

Variable detectAllFaces : image -> list descriptor.
Variable euclideanDistance : descriptor -> descriptor -> Q.

Implicit Types (s : @state descriptor coord) (u d : string)
  (t first : @LabeledFaceDescriptors descriptor)
  (rest : list (@LabeledFaceDescriptors descriptor)).

Lemma Qltb_lt (x y : Q) : Qltb x y = true ↔ (x < y)%Q.
Proof. unfold Qltb, Qlt. apply Z.ltb_lt. Qed.

Lemma Qltb_ge (x y : Q) : Qltb x y = false ↔ (y <= x)%Q.
Proof. unfold Qltb, Qle. apply Z.ltb_ge. Qed.

(** The reduction keeps a candidate of smallest distance. *)
Lemma fold_pick_best (l : list FaceMatch) (b : FaceMatch) :
  let r := fold_left pick_best l b in
  (r = b ∨ r ∈ l) ∧
  (fm_distance r <= fm_distance b)%Q ∧
  ∀ c, c ∈ l → (fm_distance r <= fm_distance c)%Q.
Proof.
  revert b. induction l as [|c l IH]; intros b; cbn zeta; cbn [fold_left].
  - split; [by left|]. split; [apply Qle_refl|].
    intros c Hc. by apply elem_of_nil in Hc.
  - destruct (IH (pick_best b c)) as (Hin & Hb & Hl).
    assert (Hp : (pick_best b c = b ∨ pick_best b c = c) ∧
                 (fm_distance (pick_best b c) <= fm_distance b)%Q ∧
                 (fm_distance (pick_best b c) <= fm_distance c)%Q).
    { unfold pick_best.
      destruct (Qltb (fm_distance b) (fm_distance c)) eqn:E.
      - apply Qltb_lt in E. split; [by left|].
        split; [apply Qle_refl|by apply Qlt_le_weak].
      - apply Qltb_ge in E. split; [by right|].
        split; [done|apply Qle_refl]. }
    destruct Hp as (Hpick & Hpb & Hpc).
    split; [|split].
    + destruct Hin as [->|Hin].
      * destruct Hpick as [->| ->]; [by left|right; left].
      * right. by right.
    + by eapply Qle_trans.
    + intros c' [->|Hc']%elem_of_cons; [by eapply Qle_trans|by apply Hl].
Qed.

(** One probe against a non-empty list of labelled descriptors: some label
    has the smallest mean distance to the probe; the match carries that
    distance, and carries that label when the distance is below the
    threshold, the label [unknown] otherwise. *)
Lemma findBestMatch_by_mean first rest (distanceThreshold : Q)
    (probe : descriptor) :
  let result := findBestMatch euclideanDistance first rest distanceThreshold probe in
  ∃ t, t ∈ first :: rest ∧
    let m := computeMeanDistance euclideanDistance probe (lfd_descriptors t) in
    (∀ t', t' ∈ first :: rest →
       (m <= computeMeanDistance euclideanDistance probe (lfd_descriptors t'))%Q) ∧
    fm_distance result = m ∧
    ((m < distanceThreshold)%Q → fm_label result = lfd_label t) ∧
    ((distanceThreshold <= m)%Q → fm_label result = "unknown").
Proof.
  intros result. subst result. unfold findBestMatch, matchDescriptor.
  destruct (fold_pick_best (map (candidate euclideanDistance probe) rest)
              (candidate euclideanDistance probe first)) as (Hin & Hb & Hl).
  set (best := fold_left pick_best _ _) in *.
  assert (Ht : ∃ t, t ∈ first :: rest ∧ best = candidate euclideanDistance probe t).
  { destruct Hin as [->|Hin].
    - exists first. split; [by left|done].
    - apply list_elem_of_fmap in Hin as (t & -> & Ht).
      exists t. split; [by right|done]. }
  destruct Ht as (t & Ht & Hbest). exists t. split; [done|]. cbn zeta.
  assert (Hd : fm_distance best
               = computeMeanDistance euclideanDistance probe (lfd_descriptors t))
    by (by rewrite Hbest).
  rewrite <- Hd. split; [|split; [|split]].
  - intros t' [->|Ht']%elem_of_cons; [exact Hb|].
    apply (Hl (candidate euclideanDistance probe t')).
    apply list_elem_of_fmap. eauto.
  - by destruct (Qltb (fm_distance best) distanceThreshold).
  - intros Hlt. apply Qltb_lt in Hlt. rewrite Hlt. by rewrite Hbest.
  - intros Hge. apply Qltb_ge in Hge. by rewrite Hge.
Qed.

(** C4, as the library has it.  [RecogniseFace] classifies each probe
    against the user's templates by mean distance: for every detected face,
    in order, some template has the smallest mean Euclidean distance from
    the probe to its reference descriptors; the result carries that
    distance, the label of that template when the distance is below the
    threshold 0.6, and the label [unknown] when it is 0.6 or more. *)
Theorem recognise_face_by_mean_distance d u (img : image) s
    (f : @Face descriptor) (fs : list (@Face descriptor))
    (Hflat : flat_registry s = true)
    (Hd : ResolveUserByDevice s d = Some u)
    (Hu : User s !! u = Some (f :: fs)) :
  let templates :=
    map (fun f => mkLabeled (label f) (descriptions f)) (f :: fs) in
  ∃ results,
    (RecogniseFace detectAllFaces (faceapi_FaceMatcher euclideanDistance)
       (Some d) img s).1 = Send 200 (Results results) ∧
    Forall2
      (fun probe result =>
         ∃ t, t ∈ templates ∧
           let m := computeMeanDistance euclideanDistance probe
                      (lfd_descriptors t) in
           (∀ t', t' ∈ templates →
              (m <= computeMeanDistance euclideanDistance probe
                      (lfd_descriptors t'))%Q) ∧
           fm_distance result = m ∧
           ((m < threshold)%Q → fm_label result = lfd_label t) ∧
           ((threshold <= m)%Q → fm_label result = "unknown"))
      (detectAllFaces img) results.
Proof.
  intros templates. subst templates.
  unfold RecogniseFace, post_recognise_face, ResolveUserByDevice in *.
  cbn [path_segment default from_option id]. rewrite Hd. cbn [findOne].
  rewrite Hu. cbn [map faceapi_FaceMatcher fst].
  eexists. split; [reflexivity|].
  induction (detectAllFaces img) as [|probe probes IH]; cbn [map];
    constructor; [|exact IH].
  apply findBestMatch_by_mean.
Qed.

End Classification.

(** [user1] holds [AB12CD] and has one template, [Alice], whose three
    reference descriptors are at distance 0.7 from the probe. *)
Lemma recognise_face_by_mean_distance_witness :
  flat_registry Gallery.far = true ∧
  ResolveUserByDevice Gallery.far "AB12CD" = Some "user1" ∧
  User Gallery.far !! "user1"
    = Some [mkFace 0 "Alice" [7 # 10; 7 # 10; 7 # 10]] ∧
  ∃ results,
    (Gallery.recognise "AB12CD" (inject_Z 0) Gallery.far).1
      = Send 200 (Results results) ∧
    Forall2
      (fun probe result =>
         ∃ t, t ∈ [mkLabeled "Alice" [7 # 10; 7 # 10; 7 # 10]] ∧
           let m := computeMeanDistance Gallery.distance probe
                      (lfd_descriptors t) in
           (∀ t', t' ∈ [mkLabeled "Alice" [7 # 10; 7 # 10; 7 # 10]] →
              (m <= computeMeanDistance Gallery.distance probe
                      (lfd_descriptors t'))%Q) ∧
           fm_distance result = m ∧
           ((m < threshold)%Q → fm_label result = lfd_label t) ∧
           ((threshold <= m)%Q → fm_label result = "unknown"))
      (Gallery.detect_all (inject_Z 0)) results.
Proof.
  refine (conj eq_refl (conj eq_refl (conj eq_refl _))).
  exact (recognise_face_by_mean_distance Gallery.detect_all Gallery.distance
           "AB12CD" "user1" (inject_Z 0) Gallery.far
           (mkFace 0 "Alice" [7 # 10; 7 # 10; 7 # 10]) []
           eq_refl eq_refl eq_refl).
Defined.

(** The scenario of the specification: a best distance of 0.7 to the only
    template gives [unknown]. *)
Example recognise_far_template_unknown :
  (Gallery.recognise "AB12CD" (inject_Z 0) Gallery.far).1
    = Send 200 (Results [mkFaceMatch "unknown" (2100 # 3000)]).
Proof. vm_compute. reflexivity. Qed.

(** The claim's criterion, the smallest distance to any reference
    descriptor, does not decide the label.  [Alice]'s descriptors are at
    distances 0.1, 1.5 and 1.5 from the probe: the smallest distance, 0.1,
    does not exceed 0.6 and belongs to [Alice], yet the result is [unknown],
    the mean distance being above 0.6. *)
Lemma recognise_face_closest_cex :
  User Gallery.spread !! "user1"
    = Some [mkFace 0 "Alice" [1 # 10; 15 # 10; 15 # 10]] ∧
  distances_to Gallery.distance (inject_Z 0)
    [mkLabeled "Alice" [1 # 10; 15 # 10; 15 # 10]]
    = [1 # 10; 15 # 10; 15 # 10] ∧
  (1 # 10 <= threshold)%Q ∧
  ¬ (∃ m, (Gallery.recognise "AB12CD" (inject_Z 0) Gallery.spread).1
          = Send 200 (Results [m]) ∧ fm_label m = "Alice") ∧
  (Gallery.recognise "AB12CD" (inject_Z 0) Gallery.spread).1
    = Send 200 (Results [mkFaceMatch "unknown" (3100 # 3000)]).
Proof.
  split; [vm_compute; reflexivity|].
  split; [vm_compute; reflexivity|].
  split; [vm_compute; discriminate|].
  split; [|vm_compute; reflexivity].
  intros (m & Hm & Hl). vm_compute in Hm. injection Hm as <-.
  vm_compute in Hl. discriminate.
Qed.
